(** * Cliox-VizHub sentiment charts: decimation, hover lookup, brush, render pass

    A shallow embedding of the pure parts of
    [src/components/SentimentChart.tsx] (the shared-axis overlay chart) and
    [src/components/SentimentChart_v2.tsx] (the stacked small-multiples chart):

    - [Decimator]: [decimateData], the bucketed max-envelope reduction that
      both files define with the same text;
    - [NearestPoint]: the binary search of the [mousemove] handler, and the
      linear scan it is compared with;
    - [Brush]: the [end] handler of the d3 brush of [renderBrush];
    - [Renderer]: the data pipeline of [renderChart] (visibility filter,
      range filter, sort, decimation, empty state), the hover lookup table
      and the tooltip rows of both variants.

    Conventions.  A JavaScript [Date] is its [getTime()] value, an integer
    number of milliseconds, in [Z].  A [number] that carries a measured value
    is a rational in [Q] (finite values only); array lengths and array
    indices are [nat]; the [maxPoints] argument of [decimateData] is any
    integer in [decimateDataInt] and a natural number in [decimateData],
    which is the same function on the budgets that are not negative; the
    indices of the binary search, which can reach [-1], are [Z].  [null] is
    [None], and so is an [undefined] array entry. *)

From Stdlib Require Import ZArith QArith Lia Lqa.
From Equations Require Import Equations.
From stdpp Require Import base list gmap strings numbers sorting.

Close Scope Q_scope.
Close Scope Z_scope.
Open Scope nat_scope.

(** [interface FormattedDataPoint { date: Date | null; value: number }] *)
Record FormattedDataPoint := mkPoint { date : option Z; value : Q }.

(** [interface FormattedSeries { name: string; values: FormattedDataPoint[] }] *)
Record FormattedSeries := mkSeries { name : string; values : list FormattedDataPoint }.

(** [interface DateRange { start: Date; end: Date }] *)
Record DateRange := mkRange { start : Z; end_ : Z }.

(** The JavaScript comparison [a > b] on finite numbers. *)
Definition Qgtb (a b : Q) : bool := negb (Qle_bool a b).

(** ** The decimator *)

Module Decimator.

(** [Math.floor((i * data.length) / maxPoints)] *)
Definition bucketStart (len maxPoints i : nat) : nat := (i * len) / maxPoints.

(** [Math.floor(((i + 1) * data.length) / maxPoints)] *)
Definition bucketEnd (len maxPoints i : nat) : nat := ((i + 1) * len) / maxPoints.

(** [data[k].value] *)
Definition valueAt (data : list FormattedDataPoint) (d0 : FormattedDataPoint)
    (k : nat) : Q :=
  value (nth k data d0).

(** One turn of the inner loop, on the pair [(maxPoint, maxValue)]:
    [if (data[j].value > maxValue) { maxValue = data[j].value; maxPoint = data[j]; }].
    [d0] stands for an array read out of range; [bucket_reads_in_range] below
    shows that the loops never make one. *)
Definition maxStep (data : list FormattedDataPoint) (d0 : FormattedDataPoint)
    (st : FormattedDataPoint * Q) (j : nat) : FormattedDataPoint * Q :=
  let pj := nth j data d0 in
  if Qgtb (value pj) (snd st) then (pj, value pj) else st.

(** The inner loop: [maxPoint = data[bucketStart]], then
    [for (j = bucketStart; j < bucketEnd; j++)]. *)
Definition bucketMax (data : list FormattedDataPoint) (d0 : FormattedDataPoint)
    (bStart bEnd : nat) : FormattedDataPoint :=
  let p := nth bStart data d0 in
  fst (fold_left (maxStep data d0) (seq bStart (bEnd - bStart)) (p, value p)).

(** [decimateData(data, maxPoints)] for a [maxPoints] that is not negative,
    as at the two call sites, which pass [50] and
    [Math.max(100, Math.floor(width / 3))]; [decimateDataInt] below is the
    function for every integer, and [decimateDataInt_budget] shows that the
    two agree.  The outer loop [for (i = 1; i < maxPoints - 1; i++)]
    runs over [i = 1 .. maxPoints - 2].  In the second branch
    [data.length > maxPoints >= 0], so the array has a first element. *)
Definition decimateData (data : list FormattedDataPoint) (maxPoints : nat)
    : list FormattedDataPoint :=
  if length data <=? maxPoints then data
  else match data with
       | [] => []
       | d0 :: _ =>
           d0 ::
           map (λ i, bucketMax data d0
                       (bucketStart (length data) maxPoints i)
                       (bucketEnd (length data) maxPoints i))
               (seq 1 (maxPoints - 2))
           ++ [nth (length data - 1) data d0]
       end.

(** The index that the inner loop holds in [maxPoint]: the same loop on the
    position instead of the point ([bucketMax_at_argmax]). *)
Definition argStep (data : list FormattedDataPoint) (d0 : FormattedDataPoint)
    (k j : nat) : nat :=
  if Qgtb (value (nth j data d0)) (value (nth k data d0)) then j else k.

Definition bucketArgMax (data : list FormattedDataPoint) (d0 : FormattedDataPoint)
    (bStart bEnd : nat) : nat :=
  fold_left (argStep data d0) (seq bStart (bEnd - bStart)) bStart.

(** The positions in [data] of the points that [decimateData] returns, in
    the order of the result ([decimateData_indices]). *)
Definition decimatedIndices (data : list FormattedDataPoint) (maxPoints : nat)
    : list nat :=
  if length data <=? maxPoints then seq 0 (length data)
  else match data with
       | [] => []
       | d0 :: _ =>
           0 ::
           map (λ i, bucketArgMax data d0
                       (bucketStart (length data) maxPoints i)
                       (bucketEnd (length data) maxPoints i))
               (seq 1 (maxPoints - 2))
           ++ [length data - 1]
       end.

(** [decimateData(data, maxPoints)] for any integer [maxPoints].  An entry
    of the result is [None] when it is [undefined]: with a negative
    [maxPoints] the test [data.length <= maxPoints] fails on the empty array
    too, and the function pushes [data[0]] and [data[data.length - 1]],
    which an empty array does not have.  The loop
    [for (i = 1; i < maxPoints - 1; i++)] does not run for
    [maxPoints <= 2]; where it runs, [maxPoints] is the natural number
    [Z.to_nat maxPoints] and the array is longer than that. *)
Definition decimateDataInt (data : list FormattedDataPoint) (maxPoints : Z)
    : list (option FormattedDataPoint) :=
  if (Z.of_nat (length data) <=? maxPoints)%Z then Some <$> data
  else match data with
       | [] => [None; None]
       | d0 :: _ =>
           Some <$>
             (d0 ::
              map (λ i, bucketMax data d0
                          (bucketStart (length data) (Z.to_nat maxPoints) i)
                          (bucketEnd (length data) (Z.to_nat maxPoints) i))
                  (seq 1 (Z.to_nat (maxPoints - 2)))
              ++ [nth (length data - 1) data d0])
       end.

(** Two points, for a budget of one. *)
Definition twoPoints : list FormattedDataPoint :=
  [ mkPoint (Some 0%Z) 3; mkPoint (Some 1000%Z) 4 ].

(** The scenario of the specification: five points, values 1 5 2 9 1. *)
Definition scenario (t0 t1 t2 t3 t4 : Z) : list FormattedDataPoint :=
  [ mkPoint (Some t0) 1; mkPoint (Some t1) 5; mkPoint (Some t2) 2;
    mkPoint (Some t3) 9; mkPoint (Some t4) 1 ].

End Decimator.

(** ** The nearest-timestamp lookup of the [mousemove] handler *)

Module NearestPoint.

Open Scope Z_scope.

(** [sortedTimestamps[i]].  The search below reads only inside the array
    ([search_reads_in_range]); the default [0] is never returned. *)
Definition at_index (sortedTimestamps : list Z) (i : Z) : Z :=
  nth (Z.to_nat i) sortedTimestamps 0.

(** [Math.abs(sortedTimestamps[i] - mouseDate)] *)
Definition distance (sortedTimestamps : list Z) (mouseDate i : Z) : Z :=
  Z.abs (at_index sortedTimestamps i - mouseDate).

Definition inspect {A : Type} (a : A) : { b : A | a = b } := exist _ a eq_refl.

(** The [while (left <= right)] loop, one call per turn:
[[
  const mid = Math.floor((left + right) / 2);
  if (Math.abs(sortedTimestamps[mid] - mouseDate) <
      Math.abs(sortedTimestamps[closestIndex] - mouseDate)) closestIndex = mid;
  if (sortedTimestamps[mid] < mouseDate) left = mid + 1; else right = mid - 1;
]]
    It returns the final [closestIndex]; [left_] and [right_] are the
    source's [left] and [right].  The recursion is well founded on
    the width [right - left + 1] of the interval, so the loop terminates on
    every input. *)
Equations? search (sortedTimestamps : list Z) (mouseDate left_ right_ closestIndex : Z) : Z
  by wf (Z.to_nat (right_ - left_ + 1)) lt :=
  search sortedTimestamps mouseDate left_ right_ closestIndex
    with inspect (left_ <=? right_) := {
    | exist _ true Hle =>
        let mid := (left_ + right_) / 2 in
        let closestIndex' :=
          if distance sortedTimestamps mouseDate mid
             <? distance sortedTimestamps mouseDate closestIndex
          then mid else closestIndex in
        if at_index sortedTimestamps mid <? mouseDate
        then search sortedTimestamps mouseDate (mid + 1) right_ closestIndex'
        else search sortedTimestamps mouseDate left_ (mid - 1) closestIndex'
    | exist _ false _ => closestIndex }.
Proof.
  all: apply Z.leb_le in Hle;
    assert (left_ <= (left_ + right_) / 2 <= right_)
      by (split; [apply Z.div_le_lower_bound | apply Z.div_le_upper_bound]; lia);
    lia.
Qed.

(** The first [if] of the loop body: [closestIndex] after the comparison
    with the entry at [mid]. *)
Definition closer (sortedTimestamps : list Z) (mouseDate closestIndex mid : Z) : Z :=
  if distance sortedTimestamps mouseDate mid
     <? distance sortedTimestamps mouseDate closestIndex
  then mid else closestIndex.

(** The values that [mid] takes in the loop, in the order of the turns. *)
Equations? midpoints (sortedTimestamps : list Z) (mouseDate left_ right_ : Z) : list Z
  by wf (Z.to_nat (right_ - left_ + 1)) lt :=
  midpoints sortedTimestamps mouseDate left_ right_
    with inspect (left_ <=? right_) := {
    | exist _ true Hle =>
        let mid := (left_ + right_) / 2 in
        mid ::
        (if at_index sortedTimestamps mid <? mouseDate
         then midpoints sortedTimestamps mouseDate (mid + 1) right_
         else midpoints sortedTimestamps mouseDate left_ (mid - 1))
    | exist _ false _ => [] }.
Proof.
  all: apply Z.leb_le in Hle;
    assert (left_ <= (left_ + right_) / 2 <= right_)
      by (split; [apply Z.div_le_lower_bound | apply Z.div_le_upper_bound]; lia);
    lia.
Qed.

(** The body of the handler after the throttle:
    [if (sortedTimestamps.length === 0) return;], then [left = 0],
    [right = sortedTimestamps.length - 1], [closestIndex = 0], the loop, and
    [selectedTimestamp = sortedTimestamps[closestIndex]]. *)
Definition closestIndexOf (sortedTimestamps : list Z) (mouseDate : Z) : Z :=
  search sortedTimestamps mouseDate 0 (Z.of_nat (length sortedTimestamps) - 1) 0.

Definition selectedTimestamp (sortedTimestamps : list Z) (mouseDate : Z) : option Z :=
  if (length sortedTimestamps =? 0)%nat then None
  else Some (at_index sortedTimestamps (closestIndexOf sortedTimestamps mouseDate)).

(** The entries that the handler compares with the pointer, in the order
    in which it holds them against [closestIndex]: the entry at index 0,
    the initial [closestIndex], then the entry at each [mid]. *)
Definition comparedTimestamps (sortedTimestamps : list Z) (mouseDate : Z) : list Z :=
  if (length sortedTimestamps =? 0)%nat then []
  else at_index sortedTimestamps
         <$> (0 :: midpoints sortedTimestamps mouseDate 0
                     (Z.of_nat (length sortedTimestamps) - 1)).

(** The linear scan of the specification: the entry minimizing
    [abs(candidate - pointerTimestamp)], ties resolved toward the lower
    index.  A later candidate replaces the best one only when it is strictly
    nearer. *)
Definition linearStep (pointerTimestamp best candidate : Z) : Z :=
  if Z.abs (candidate - pointerTimestamp) <? Z.abs (best - pointerTimestamp)
  then candidate else best.

Definition linearScan (sortedTimestamps : list Z) (pointerTimestamp : Z) : option Z :=
  match sortedTimestamps with
  | [] => None
  | t0 :: rest => Some (fold_left (linearStep pointerTimestamp) rest t0)
  end.

(** Two entries at the same distance of 5 on both sides of the pointer. *)
Definition tieTimestamps : list Z := [0; 10; 20; 30; 40].
Definition tiePointer : Z := 15.

End NearestPoint.

(** ** The brush of the overview chart *)

Module Brush.

(** What the [end] handler reads of the d3 brush event: whether
    [event.sourceEvent] is set, and [event.selection], [null] or a pair of
    pixel abscissas. *)
Record BrushEvent := mkEvent { sourceEvent : bool; selection : option (Q * Q) }.

(** The [.on('end', (event) => ...)] handler of [renderBrush], as a function
    from the [dateRange] state before the event to the state after it.
    [invert] is [x.invert] of the overview's time scale.
[[
  if (!event.sourceEvent) return;
  if (!event.selection) return;
  const [x0, x1] = event.selection;
  setDateRange({ start: x.invert(x0), end: x.invert(x1) });
]] *)
Definition brushEnd (invert : Q → Z) (event : BrushEvent)
    (dateRange : option DateRange) : option DateRange :=
  if negb (sourceEvent event) then dateRange
  else match selection event with
       | None => dateRange
       | Some (x0, x1) => Some (mkRange (invert x0) (invert x1))
       end.

(** A [Date] made from a fractional number of milliseconds keeps its integer
    part (truncation toward zero). *)
Definition timeClip (q : Q) : Z := (Qnum q ÷ Z.pos (Qden q))%Z.

(** Modelled from the spec: the Scale Mapper, which the source takes from d3
    ([d3.scaleTime().domain([d0, d1]).range([0, width])]) and which is not
    under src/.  The specification makes the map from time to pixel linear
    and invertible; its inverse sends pixel [px] to
    [d0 + (px / width) * (d1 - d0)], as a [Date]. *)
Definition scaleInvert (d0 d1 : Z) (width : Q) (px : Q) : Z :=
  timeClip (inject_Z d0 + (px / width) * inject_Z (d1 - d0))%Q.

(** An overview of one day, 864 pixels wide: 100 seconds per pixel. *)
Definition dayInvert : Q → Z := scaleInvert 0 86400000 864.

(** Modelled from the spec: the brush itself ([d3.brushX], not under src/),
    for which the specification has "a drag collapsed to zero width is
    rejected / not committed" and "degenerate brush selection (zero-width
    or released outside drag): discarded".  The [end] event of a user
    gesture that leaves the pixel selection from [x0] to [x1] carries that
    selection, and [null] when the selection is empty, [x0 = x1]. *)
Definition gestureEnd (x0 x1 : Q) : BrushEvent :=
  mkEvent true (if Qeq_bool x0 x1 then None else Some (x0, x1)).

Definition fullDay : DateRange := mkRange 0 86400000.

End Brush.

(** ** The render pass *)

Module Raw.

(** [interface SentimentData { name: string; values: [string, number][] }] *)
Record SentimentData := mk { name : string; values : list (string * Q) }.

End Raw.

Module Renderer.

Import Decimator NearestPoint.

Open Scope Z_scope.

(** [Array.prototype.sort(compareFn)]: a stable sort, here by insertion.
    Each element goes after the elements that do not compare greater. *)
Fixpoint insertSorted {A : Type} (compareFn : A → A → Z) (x : A) (sorted : list A)
    : list A :=
  match sorted with
  | [] => [x]
  | y :: rest =>
      if compareFn y x <=? 0 then y :: insertSorted compareFn x rest
      else x :: y :: rest
  end.

Definition arraySort {A : Type} (compareFn : A → A → Z) (l : list A) : list A :=
  fold_left (λ sorted x, insertSorted compareFn x sorted) l [].

(** The range filter:
    [if (!point.date) return false;
     return point.date >= dateRange.start && point.date <= dateRange.end;] *)
Definition inRange (dateRange : DateRange) (point : FormattedDataPoint) : bool :=
  match date point with
  | None => false
  | Some t => (start dateRange <=? t) && (t <=? end_ dateRange)
  end.

(** The comparator of the sort:
    [if (!a.date || !b.date) return 0; return a.date.getTime() - b.date.getTime();]
    The stacked variant leaves the first line out; it sorts points that
    passed [inRange], whose dates are not [null]. *)
Definition compareDates (a b : FormattedDataPoint) : Z :=
  match date a, date b with
  | Some ta, Some tb => ta - tb
  | _, _ => 0
  end.

(** One series through [.map(parse).filter(in range).sort(by date)].
    [parseTime] is [d3.timeParse('%Y-%m-%dT%H:%M:%SZ')], which gives [null]
    on a string it cannot read. *)
Definition pointsInRange (parseTime : string → option Z) (dateRange : DateRange)
    (d : Raw.SentimentData) : list FormattedDataPoint :=
  List.filter (inRange dateRange)
    (map (λ v, mkPoint (parseTime (fst v)) (snd v)) (Raw.values d)).

Definition formatSeries (parseTime : string → option Z) (dateRange : DateRange)
    (d : Raw.SentimentData) : FormattedSeries :=
  mkSeries (Raw.name d) (arraySort compareDates (pointsInRange parseTime dateRange d)).

(** [visibleLines[d.name]]: a missing key reads [undefined], which is falsy. *)
Definition isVisible (visibleLines : gmap string bool) (d : Raw.SentimentData) : bool :=
  default false (visibleLines !! Raw.name d).

(** [Math.max(100, Math.floor(width / 3))] *)
Definition maxPointsPerLine (width : Z) : nat := Z.to_nat (Z.max 100 (width / 3)).

Definition decimateSeries (width : Z) (series : FormattedSeries) : FormattedSeries :=
  mkSeries (name series) (decimateData (values series) (maxPointsPerLine width)).

(** [formattedData.length === 0 || formattedData.every(d => d.values.length === 0)] *)
Definition noPoints (formattedData : list FormattedSeries) : bool :=
  (length formattedData =? 0)%nat
  || forallb (λ d, (length (values d) =? 0)%nat) formattedData.

(** What a pass of [renderChart] leaves in the container. *)
Inductive Rendering :=
| NothingDrawn                                (* an early [return] *)
| NoDataPlaceholder                           (* 'No data points in the selected date range' *)
| Chart (formattedData : list FormattedSeries). (* axes, one path per series, hover area *)

(** [renderChart] of the overlay chart, from the React state it reads
    ([sentimentData], [visibleLines], [dateRange]) and the container's
    [clientWidth].  The margins are [left: 50] and [right: 80]. *)
Definition renderChart (parseTime : string → option Z)
    (sentimentData : list Raw.SentimentData) (visibleLines : gmap string bool)
    (dateRange : option DateRange) (clientWidth : Z) : Rendering :=
  match dateRange with
  | None => NothingDrawn
  | Some dateRange =>
      let width := clientWidth - 50 - 80 in
      if width <=? 0 then NothingDrawn
      else
        let formattedData :=
          map (formatSeries parseTime dateRange)
              (List.filter (isVisible visibleLines) sentimentData) in
        let formattedData := map (decimateSeries width) formattedData in
        if noPoints formattedData then NoDataPlaceholder
        else Chart formattedData
  end.

(** The effect that runs the pass of the overlay chart when the data, the
    visibility set, the range or the width change, in a mounted component
    ([chartRef.current] is set):
    [if (!chartRef.current || !sentimentData.length || !dateRange) return;
     renderChart(); renderBrush();] *)
Definition renderEffect (parseTime : string → option Z)
    (sentimentData : list Raw.SentimentData) (visibleLines : gmap string bool)
    (dateRange : option DateRange) (clientWidth : Z) : Rendering :=
  if (length sentimentData =? 0)%nat then NothingDrawn
  else match dateRange with
       | None => NothingDrawn
       | Some _ => renderChart parseTime sentimentData visibleLines dateRange clientWidth
       end.

(** [renderChart] of the stacked chart: no visibility filter, margins
    [left: 50] and [right: 40]. *)
Definition renderChartV2 (parseTime : string → option Z)
    (sentimentData : list Raw.SentimentData)
    (dateRange : option DateRange) (clientWidth : Z) : Rendering :=
  match dateRange with
  | None => NothingDrawn
  | Some dateRange =>
      let width := clientWidth - 50 - 40 in
      if width <=? 0 then NothingDrawn
      else
        let formattedData := map (formatSeries parseTime dateRange) sentimentData in
        let decimatedData := map (decimateSeries width) formattedData in
        if noPoints decimatedData then NoDataPlaceholder
        else Chart decimatedData
  end.

(** The number of points a pass draws. *)
Definition renderedPoints (r : Rendering) : nat :=
  match r with
  | Chart formattedData => sum_list (map (λ d, length (values d)) formattedData)
  | _ => 0%nat
  end.

(** *** Hover: the lookup table and the tooltip *)

(** The body of [series.values.forEach(point => ...)] on
    [dateValues : Map<number, Map<string, number>>]:
[[
  if (!point.date) return;
  const timestamp = point.date.getTime();
  if (!dateValues.has(timestamp)) dateValues.set(timestamp, new Map());
  dateValues.get(timestamp)?.set(series.name, point.value);
]] *)
Definition addPoint (seriesName : string) (dateValues : gmap Z (gmap string Q))
    (point : FormattedDataPoint) : gmap Z (gmap string Q) :=
  match date point with
  | None => dateValues
  | Some timestamp =>
      <[timestamp := <[seriesName := value point]> (default ∅ (dateValues !! timestamp))]>
        dateValues
  end.

Definition buildDateValues (formattedData : list FormattedSeries)
    : gmap Z (gmap string Q) :=
  fold_left (λ dateValues series,
               fold_left (addPoint (name series)) (values series) dateValues)
            formattedData ∅.

(** [Array.from(dateValues.keys()).sort((a, b) => a - b)] *)
Definition sortedTimestamps (dateValues : gmap Z (gmap string Q)) : list Z :=
  merge_sort Z.le (map fst (map_to_list dateValues)).

(** [dateValues.get(selectedTimestamp)?.get(series.name)] *)
Definition seriesValueAt (dateValues : gmap Z (gmap string Q))
    (selectedTimestamp : Z) (seriesName : string) : option Q :=
  dateValues !! selectedTimestamp ≫= λ seriesValues, seriesValues !! seriesName.

(** What a row of the tooltip shows next to a series name: a number, or the
    text [N/A]. *)
Inductive TooltipValue :=
| Shown (v : Q)
| NotAvailable.

(** The rows of the overlay chart: [seriesValues?.get(series.name) ?? "N/A"]. *)
Definition tooltipRows (formattedData : list FormattedSeries)
    (dateValues : gmap Z (gmap string Q)) (selectedTimestamp : Z)
    : list (string * TooltipValue) :=
  map (λ series,
         (name series,
          match seriesValueAt dateValues selectedTimestamp (name series) with
          | Some v => Shown v
          | None => NotAvailable
          end))
      formattedData.

(** The rows of the stacked chart: [seriesValues?.get(series.name) ?? 0]. *)
Definition tooltipRowsV2 (decimatedData : list FormattedSeries)
    (dateValues : gmap Z (gmap string Q)) (selectedTimestamp : Z)
    : list (string * TooltipValue) :=
  map (λ series,
         (name series,
          Shown (default 0%Q (seriesValueAt dateValues selectedTimestamp (name series)))))
      decimatedData.

(** The [mousemove] handler after the throttle, on the series the pass drew,
    for a pointer whose abscissa [x.invert] sends to [mouseDate]: the
    timestamp under the crosshair and the rows of the tooltip, or nothing
    when no drawn point has a timestamp. *)
Definition mousemove (formattedData : list FormattedSeries) (mouseDate : Z)
    : option (Z * list (string * TooltipValue)) :=
  let dateValues := buildDateValues formattedData in
  match selectedTimestamp (sortedTimestamps dateValues) mouseDate with
  | None => None
  | Some ts => Some (ts, tooltipRows formattedData dateValues ts)
  end.

Definition mousemoveV2 (decimatedData : list FormattedSeries) (mouseDate : Z)
    : option (Z * list (string * TooltipValue)) :=
  let dateValues := buildDateValues decimatedData in
  match selectedTimestamp (sortedTimestamps dateValues) mouseDate with
  | None => None
  | Some ts => Some (ts, tooltipRowsV2 decimatedData dateValues ts)
  end.

(** *** Sample inputs *)

(** [parseTime] on the three date strings of the samples below. *)
Definition sampleParseTime (s : string) : option Z :=
  if String.eqb s "2024-01-01T00:00:00Z" then Some 1704067200000
  else if String.eqb s "2024-01-02T00:00:00Z" then Some 1704153600000
  else if String.eqb s "2024-01-03T00:00:00Z" then Some 1704240000000
  else None.

(** Two series sampled on different days. *)
Definition sampleData : list Raw.SentimentData :=
  [ Raw.mk "-1" [("2024-01-01T00:00:00Z", 4%Q); ("2024-01-03T00:00:00Z", 6%Q)];
    Raw.mk "+1" [("2024-01-02T00:00:00Z", 7%Q)] ].

Definition sampleRange : DateRange := mkRange 1704067200000 1704240000000.

Definition allVisible : gmap string bool := <["-1" := true]> (<["+1" := true]> ∅).
Definition allHidden : gmap string bool := <["-1" := false]> (<["+1" := false]> ∅).

(** What both variants draw for [sampleData] over [sampleRange]. *)
Definition sampleDrawn : list FormattedSeries :=
  [ mkSeries "-1" [ mkPoint (Some 1704067200000) 4; mkPoint (Some 1704240000000) 6 ];
    mkSeries "+1" [ mkPoint (Some 1704153600000) 7 ] ].

(** A narrower window inside [sampleRange]: the first two days. *)
Definition sampleNarrowRange : DateRange := mkRange 1704067200000 1704153600000.

End Renderer.

(** ** The rest of the two chart components *)

Module Chart.

Import Decimator NearestPoint Renderer.

Open Scope Z_scope.

(** Chronological order as the comparator of the sort sees it: [a] may come
    before [b] when [compareDates a b <= 0]. *)
Definition chronLe (a b : FormattedDataPoint) : Prop := compareDates a b ≤ 0.

(** The timestamp of a point whose date is not [null]. *)
Definition timeOf (p : FormattedDataPoint) : Z := default 0 (date p).

End Chart.

(** ** JavaScript strings *)

Module Js.

Import Stdlib.Strings.Ascii.

(** A character of a Rocq string stands for one UTF-16 code unit below 256;
    strings with other code units are outside the model. *)

(** The line feed, [\n]. *)
Definition LF : Ascii.ascii := "010"%char.

(** White space and line terminators, as [trim] and [parseInt] skip them:
    below 256 these are TAB, LF, VT, FF, CR, SP and NBSP. *)
Definition isWhiteSpace (c : Ascii.ascii) : bool :=
  let n := Ascii.nat_of_ascii c in
  (n =? 9)%nat || (n =? 10)%nat || (n =? 11)%nat || (n =? 12)%nat
  || (n =? 13)%nat || (n =? 32)%nat || (n =? 160)%nat.

Fixpoint trimStart (s : string) : string :=
  match s with
  | EmptyString => EmptyString
  | String c rest => if isWhiteSpace c then trimStart rest else s
  end.

Fixpoint trimEnd (s : string) : string :=
  match s with
  | EmptyString => EmptyString
  | String c rest =>
      match trimEnd rest with
      | EmptyString => if isWhiteSpace c then EmptyString else String c EmptyString
      | kept => String c kept
      end
  end.

(** [String.prototype.trim] *)
Definition trim (s : string) : string := trimEnd (trimStart s).

(** [s.split(sep)] for a separator of one character: never empty, one more
    part than there are separators. *)
Fixpoint split (sep : Ascii.ascii) (s : string) : list string :=
  match s with
  | EmptyString => [EmptyString]
  | String c rest =>
      if Ascii.eqb c sep then EmptyString :: split sep rest
      else match split sep rest with
           | part :: parts => String c part :: parts
           | [] => [String c EmptyString]
           end
  end.

(** [s.includes(sub)] *)
Fixpoint includes (sub s : string) : bool :=
  String.prefix sub s
  || match s with
     | EmptyString => false
     | String _ rest => includes sub rest
     end.


Definition digitValue (c : Ascii.ascii) : option Z :=
  let n := Ascii.nat_of_ascii c in
  if (48 <=? n)%nat && (n <=? 57)%nat then Some (Z.of_nat n - 48)%Z else None.

Definition hexDigitValue (c : Ascii.ascii) : option Z :=
  let n := Ascii.nat_of_ascii c in
  if (48 <=? n)%nat && (n <=? 57)%nat then Some (Z.of_nat n - 48)%Z
  else if (97 <=? n)%nat && (n <=? 102)%nat then Some (Z.of_nat n - 87)%Z
  else if (65 <=? n)%nat && (n <=? 70)%nat then Some (Z.of_nat n - 55)%Z
  else None.

(** The value of the longest prefix of digits; [acc] is the value so far,
    [None] before the first digit. *)
Fixpoint digitsPrefix (digit : Ascii.ascii → option Z) (radix : Z) (s : string)
    (acc : option Z) : option Z :=
  match s with
  | EmptyString => acc
  | String c rest =>
      match digit c with
      | Some d => digitsPrefix digit radix rest (Some (radix * default 0 acc + d)%Z)
      | None => acc
      end
  end.

(** [parseInt(s)] without a radix: leading white space, an optional sign, an
    optional [0x] or [0X] that selects base 16, then the longest prefix of
    digits; [None] is [NaN].  The result is the exact integer (JavaScript
    rounds it to a double above 2^53). *)
Definition parseInt (s : string) : option Z :=
  let s := trimStart s in
  let '(sign, s) :=
    match s with
    | String "-" rest => ((-1)%Z, rest)
    | String "+" rest => (1%Z, rest)
    | _ => (1%Z, s)
    end in
  let '(digit, radix, s) :=
    match s with
    | String "0" (String "x" rest) => (hexDigitValue, 16%Z, rest)
    | String "0" (String "X" rest) => (hexDigitValue, 16%Z, rest)
    | _ => (digitValue, 10%Z, s)
    end in
  (λ n, sign * n)%Z <$> digitsPrefix digit radix s None.

End Js.

(** ** Loading, legend, overview and pointer handling of the chart components *)

Module Controls.

Import Stdlib.Strings.Ascii.
Import Decimator Renderer Chart.

Open Scope Z_scope.

(** *** Loaded state *)

(** [data.forEach(line => { initialVisibility[line.name] = true; })] *)
Definition initialVisibility (data : list Raw.SentimentData) : gmap string bool :=
  fold_left (λ initialVisibility line, <[Raw.name line := true]> initialVisibility)
            data ∅.

(** [data.flatMap(d => d.values.map(v => parseTime(v[0]))).filter(d => d !== null)] *)
Definition allDates (parseTime : string → option Z) (data : list Raw.SentimentData)
    : list Z :=
  omap id (flat_map (λ d, map (λ v, parseTime (fst v)) (Raw.values d)) data).

(** [d3.extent(values)]: the smallest and the largest value, in one pass;
    [None] stands for [[undefined, undefined]], the extent of no value. *)
Definition extent (values : list Z) : option (Z * Z) :=
  match values with
  | [] => None
  | v :: rest =>
      Some (fold_left (λ '(lo, hi) value,
                         (if value <? lo then value else lo,
                          if hi <? value then value else hi))
                      rest (v, v))
  end.

(** The [dateRange] state after a load:
    [if (allDates.length > 0) { const extent = d3.extent(allDates);
       setDateRange({ start: extent[0], end: extent[1] }); }],
    and [null] otherwise. *)
Definition initialDateRange (parseTime : string → option Z)
    (data : list Raw.SentimentData) : option DateRange :=
  match extent (allDates parseTime data) with
  | Some (lo, hi) => Some (mkRange lo hi)
  | None => None
  end.




(** *** Legend *)



(** *** Overview and reset *)

(** The points of a series in the overview of [renderBrush]:
    [.map(parse).filter(d => d.date !== null).sort(by date)], decimated to
    50 points.  The comparator is [a.date.getTime() - b.date.getTime()], on
    dates that are not [null]. *)
Definition datedPoints (parseTime : string → option Z) (series : Raw.SentimentData)
    : list FormattedDataPoint :=
  List.filter (λ d, bool_decide (date d ≠ None))
    (map (λ v, mkPoint (parseTime (fst v)) (snd v)) (Raw.values series)).

Definition overviewValues (parseTime : string → option Z) (series : Raw.SentimentData)
    : list FormattedDataPoint :=
  decimateData (arraySort compareDates (datedPoints parseTime series)) 50.

(** Whether the overlay chart draws the mini line of a series:
    [series.visible && series.values.length > 0]. *)
Definition overviewDrawn (parseTime : string → option Z)
    (visibleLines : gmap string bool) (series : Raw.SentimentData) : bool :=
  isVisible visibleLines series
  && negb (length (overviewValues parseTime series) =? 0)%nat.

(** The click handler of the reset button:
    [setDateRange({ start: fullDateRange[0], end: fullDateRange[1] })] with
    [fullDateRange = d3.extent(allDates)].  [None] stands for the range of
    two [undefined] ends, which the button sets when no date parses. *)
Definition resetZoom (parseTime : string → option Z)
    (sentimentData : list Raw.SentimentData) : option DateRange :=
  match extent (allDates parseTime sentimentData) with
  | Some (lo, hi) => Some (mkRange lo hi)
  | None => None
  end.

(** *** Pointer *)

Definition throttleDelay : Z := 30.

(** The throttle of the [mousemove] handler over a run of events, given by
    their [Date.now()] values: the events that get past
    [if (now - lastMove < throttleDelay) return; lastMove = now;]. *)
Fixpoint handledMoves (lastMove : Z) (nows : list Z) : list Z :=
  match nows with
  | [] => []
  | now :: rest =>
      if now - lastMove <? throttleDelay then handledMoves lastMove rest
      else now :: handledMoves now rest
  end.

(** The JavaScript comparison [a < b] on finite numbers. *)
Definition Qltb (a b : Q) : bool := negb (Qle_bool b a).

(** The left edge of the tooltip of the stacked chart, in pixels:
[[
  const spaceOnRight = containerWidth - event.offsetX;
  const tooltipX = spaceOnRight < (tooltipWidth + 20)
    ? `${event.offsetX - tooltipWidth - 10}px` : `${event.offsetX + 15}px`;
]] *)
Definition tooltipX (containerWidth offsetX tooltipWidth : Q) : Q :=
  let spaceOnRight := (containerWidth - offsetX)%Q in
  if Qltb spaceOnRight (tooltipWidth + 20)%Q
  then (offsetX - tooltipWidth - 10)%Q
  else (offsetX + 15)%Q.

(** *** Colours and labels of the stacked chart *)

Definition getSentimentColor (sentiment : string) : string :=
  if String.eqb sentiment "-2" then "#4fc3f7"
  else if String.eqb sentiment "-1" then "#9575cd"
  else if String.eqb sentiment "0" then "#e0e0e0"
  else if String.eqb sentiment "+1" then "#ffb74d"
  else if String.eqb sentiment "+2" then "#ff8a65"
  else "#e0e0e0".

Definition sentimentLabel (name : string) : string :=
  if String.eqb name "-2" then "Very Negative"
  else if String.eqb name "-1" then "Negative"
  else if String.eqb name "0" then "Neutral"
  else if String.eqb name "1" || String.eqb name "+1" then "Positive"
  else if String.eqb name "2" || String.eqb name "+2" then "Very Positive"
  else "".

(** *** Sample *)


End Controls.

(** ** The data store ([src/store/dataStore.ts]) and the dashboard page *)

Module DataStore.

Open Scope string_scope.

Definition WORD_CLOUD : string := "wordCloudData".
Definition DATE_DISTRIBUTION : string := "dateDistributionData".
Definition EMAIL_DISTRIBUTION : string := "emailDistributionData".
Definition SENTIMENT : string := "sentimentData".
Definition DOCUMENT_SUMMARY : string := "documentSummaryData".

(** [Object.values(STORAGE_KEYS)] *)
Definition STORAGE_KEYS : list string :=
  [ WORD_CLOUD; DATE_DISTRIBUTION; EMAIL_DISTRIBUTION; SENTIMENT; DOCUMENT_SUMMARY ].

(** The state that the store's functions read and write: the browser's
    [localStorage], a map from strings to strings, and the [dataStatus]
    object of the store. *)
Record Store := mkStore {
  localStorage : gmap string string;
  dataStatus : gmap string bool
}.

(** A string as a condition: [null] and the empty string are falsy. *)
Definition truthy (item : option string) : bool :=
  match item with
  | None => false
  | Some s => negb (String.eqb s "")
  end.

(** [isDataAvailable]; [window] tells whether the code runs in a browser
    ([typeof window !== 'undefined']).
[[
  if (typeof window === 'undefined') return false;
  return !!localStorage.getItem(dataType);
]] *)
Definition isDataAvailable (window : bool) (storage : gmap string string)
    (dataType : string) : bool :=
  if negb window then false else truthy (storage !! dataType).

(** [hasData: (dataType) => isDataAvailable(dataType)] *)
Definition hasData (window : bool) (s : Store) (dataType : string) : bool :=
  isDataAvailable window (localStorage s) dataType.

Definition noData : gmap string bool :=
  list_to_map (map (λ key, (key, false)) STORAGE_KEYS).

(** [setDataStatus]: [{ ...state.dataStatus, [dataType]: status }] *)
Definition setDataStatus (dataType : string) (status : bool) (s : Store) : Store :=
  mkStore (localStorage s) (<[dataType := status]> (dataStatus s)).

(** [checkDataStatus]: a new status object, [isDataAvailable] for each of
    the five keys. *)
Definition checkDataStatus (window : bool) (s : Store) : Store :=
  mkStore (localStorage s)
    (list_to_map (map (λ key, (key, isDataAvailable window (localStorage s) key))
                      STORAGE_KEYS)).

(** [saveData(dataType, data, fileName, fileType)]; [timestamp] is
    [Date.now().toString()].
[[
  if (typeof window === 'undefined') return;
  localStorage.setItem(dataType, data);
  localStorage.setItem(`${dataType}FileName`, fileName);
  localStorage.setItem(`${dataType}FileType`, fileType);
  localStorage.setItem(`${dataType}Timestamp`, Date.now().toString());
  set(state => ({ dataStatus: { ...state.dataStatus, [dataType]: true } }));
]] *)
Definition saveData (window : bool) (timestamp : string)
    (dataType data fileName fileType : string) (s : Store) : Store :=
  if negb window then s
  else
    mkStore
      (<[dataType ++ "Timestamp" := timestamp]>
         (<[dataType ++ "FileType" := fileType]>
            (<[dataType ++ "FileName" := fileName]>
               (<[dataType := data]> (localStorage s)))))
      (<[dataType := true]> (dataStatus s)).

(** The keys that [clearAllData] removes, in the order of its
    [removeItem] calls. *)
Definition clearedKeys : list string :=
  flat_map (λ key, [ key; key ++ "FileName"; key ++ "FileType"; key ++ "Timestamp" ])
           STORAGE_KEYS.

(** [clearAllData] *)
Definition clearAllData (window : bool) (s : Store) : Store :=
  if negb window then s
  else mkStore (fold_left (λ storage key, delete key storage) clearedKeys (localStorage s))
               noData.

(** [parseUserData(dataType)].  [jsonParse] is [JSON.parse], [None] when it
    throws; the result is [None] for [null], [inl] for a parsed value and
    [inr] for raw text.
[[
  const data = localStorage.getItem(dataType);
  const fileType = localStorage.getItem(`${dataType}FileType`);
  if (!data) return null;
  try {
    if (fileType?.includes('json')) return JSON.parse(data);
    else if (fileType?.includes('csv') || fileType?.includes('text')) return data;
    else return null;
  } catch (error) { return null; }
]] *)
Definition parseUserData {J : Type} (jsonParse : string → option J) (window : bool)
    (storage : gmap string string) (dataType : string) : option (J + string) :=
  if negb window then None
  else
    let data := storage !! dataType in
    let fileType := storage !! (dataType ++ "FileType") in
    if negb (truthy data) then None
    else
      let data := default "" data in
      if default false (Js.includes "json" <$> fileType) then inl <$> jsonParse data
      else if default false (Js.includes "csv" <$> fileType)
              || default false (Js.includes "text" <$> fileType)
      then Some (inr data)
      else None.

(** [fetchEmailDistribution] and [fetchDateDistribution], for the key they
    read; [mock] is what the mock generator returns.
[[
  if (isDataAvailable(KEY)) { const data = localStorage.getItem(KEY); if (data) return data; }
  return generateMock...();
]] *)
Definition fetchText (key : string) (mock : string) (window : bool)
    (storage : gmap string string) : string :=
  if isDataAvailable window storage key
  then if truthy (storage !! key) then default "" (storage !! key) else mock
  else mock.

Definition fetchEmailDistribution := fetchText EMAIL_DISTRIBUTION.
Definition fetchDateDistribution := fetchText DATE_DISTRIBUTION.

(** [fetchSentimentData]: the stored text through [JSON.parse]; the mock
    series when nothing is stored or the text does not parse. *)
Definition fetchSentimentData {J : Type} (jsonParse : string → option J) (mock : J)
    (window : bool) (storage : gmap string string) : J :=
  if isDataAvailable window storage SENTIMENT
  then if truthy (storage !! SENTIMENT)
       then default mock (jsonParse (default "" (storage !! SENTIMENT)))
       else mock
  else mock.

(** *** The dashboard page ([checkData] of [Home]) *)

(** [Object.values(STORAGE_KEYS).some(key => localStorage.getItem(key) !== null)] *)
Definition dataExists (storage : gmap string string) : bool :=
  existsb (λ key, bool_decide (storage !! key ≠ None)) STORAGE_KEYS.

(** [checkData] on the store and the [showUploadModal] state:
    [if (dataExists) checkDataStatus(); else setShowUploadModal(true);] *)
Definition checkData (s : Store) (showUploadModal : bool) : Store * bool :=
  if dataExists (localStorage s) then (checkDataStatus true s, showUploadModal)
  else (s, true).

(** Which panels of the page show a chart rather than the empty state:
    [dataStatus[KEY] ? <Chart/> : <EmptyState/>]. *)
Definition panelShown (s : Store) (key : string) : bool :=
  default false (dataStatus s !! key).

End DataStore.

(** ** The sample loader ([useDataLoader], [TestVizHub]) *)

Module Loader.

Import Stdlib.Strings.Ascii.
Open Scope string_scope.

(** The lines after the header: [text.trim().split('\n').slice(1)] *)
Definition dataLines (text : string) : list string :=
  tail (Js.split Js.LF (Js.trim text)).

(** The email distribution: one number per line; lines that do not start
    with a number are dropped.
[[
  emailDistributionLines.slice(1)
    .map(line => ({ emails_per_day: parseInt(line.trim()) }))
    .filter(item => !isNaN(item.emails_per_day));
]] *)
Definition parseEmailDistribution (text : string) : list Z :=
  omap (λ line, Js.parseInt (Js.trim line)) (dataLines text).

(** One line of the date distribution; [None] is the [TypeError] of
    [count.trim()] when the line has no second field.
[[
  const [time, count] = line.split(',');
  return { time: time.trim(), count: parseInt(count.trim()) };
]] *)
Definition parseDateLine (line : string) : option (string * option Z) :=
  match Js.split ","%char line with
  | time :: count :: _ => Some (Js.trim time, Js.parseInt (Js.trim count))
  | _ => None
  end.

(** [item => item.time && !isNaN(item.count)] *)
Definition keepDateRow (item : string * option Z) : option (string * Z) :=
  if String.eqb item.1 "" then None else pair item.1 <$> item.2.

(** The date distribution; [None] when the [map] throws, which the loader
    turns into its error state. *)
Definition parseDateDistribution (text : string) : option (list (string * Z)) :=
  omap keepDateRow <$> mapM parseDateLine (dataLines text).

End Loader.

(** * Properties *)

(** [x ∈ [a; b; ...]] in hypothesis [H], none of the elements being [x]. *)
Ltac not_in_list H :=
  repeat (apply elem_of_cons in H as [H|H]; [discriminate H|]);
  by apply elem_of_nil in H.

(** [d ∈ [a; b; ...]] in hypothesis [H]: the goal for each element, by
    computation. *)
Ltac for_each_in_list H :=
  repeat (apply elem_of_cons in H as [->|H]; [by vm_compute|]);
  by apply elem_of_nil in H.

(** Membership in a list of given strings, by computation. *)
Ltac in_keys := by (apply (bool_decide_unpack _); vm_compute).

Lemma Qgtb_true (a b : Q) : Qgtb a b = true ↔ (b < a)%Q.
Proof.
  unfold Qgtb. rewrite negb_true_iff. split.
  - intros H. apply Qnot_le_lt. intros Hle. apply Qle_bool_iff in Hle. congruence.
  - intros H. destruct (Qle_bool a b) eqn:E; [|done].
    apply Qle_bool_iff in E. exfalso. eapply Qlt_not_le; eauto.
Qed.

Lemma Qgtb_false (a b : Q) : Qgtb a b = false ↔ (a <= b)%Q.
Proof.
  unfold Qgtb. rewrite negb_false_iff. apply Qle_bool_iff.
Qed.

(** ** The decimator *)

Module DecimatorFacts.

Import Decimator.

(** *** Bucket arithmetic *)

Lemma div_bounds (a b : nat) : b ≠ 0 → b * (a / b) ≤ a < b * (a / b) + b.
Proof.
  intros Hb. split.
  - by apply Nat.Div0.mul_div_le.
  - pose proof (Nat.mul_succ_div_gt a b Hb). lia.
Qed.

Lemma bucketEnd_next (len maxPoints i : nat) :
  bucketEnd len maxPoints i = bucketStart len maxPoints (i + 1).
Proof. reflexivity. Qed.

Lemma bucketStart_mono (len maxPoints i j : nat) :
  i ≤ j → bucketStart len maxPoints i ≤ bucketStart len maxPoints j.
Proof.
  intros Hij. unfold bucketStart. apply Nat.Div0.div_le_mono. nia.
Qed.

(** A bucket holds [len / maxPoints] indices, or one more. *)
Lemma bucket_size (len maxPoints i : nat) :
  maxPoints ≠ 0 →
  len / maxPoints ≤ bucketEnd len maxPoints i - bucketStart len maxPoints i
    ≤ len / maxPoints + 1.
Proof.
  intros Hm. unfold bucketEnd, bucketStart.
  pose proof (div_bounds len maxPoints Hm).
  pose proof (div_bounds (i * len) maxPoints Hm).
  pose proof (div_bounds ((i + 1) * len) maxPoints Hm).
  nia.
Qed.

Lemma bucket_nonempty (len maxPoints i : nat) :
  maxPoints < len → maxPoints ≠ 0 →
  bucketStart len maxPoints i < bucketEnd len maxPoints i.
Proof.
  intros Hlt Hm. pose proof (bucket_size len maxPoints i Hm) as [Hlo _].
  assert (1 ≤ len / maxPoints) by (apply Nat.div_le_lower_bound; lia).
  lia.
Qed.

Lemma first_bucket_start (len maxPoints : nat) :
  maxPoints < len → maxPoints ≠ 0 → 1 ≤ bucketStart len maxPoints 1.
Proof.
  intros Hlt Hm. unfold bucketStart. apply Nat.div_le_lower_bound; lia.
Qed.

(** The last interior bucket stops before index [len - 2]. *)
Lemma last_bucket_end (len maxPoints : nat) :
  maxPoints < len → 2 ≤ maxPoints →
  bucketEnd len maxPoints (maxPoints - 2) ≤ len - 2.
Proof.
  intros Hlt Hm. unfold bucketEnd.
  replace (maxPoints - 2 + 1) with (maxPoints - 1) by lia.
  assert (Hm0 : maxPoints ≠ 0) by lia.
  pose proof (div_bounds ((maxPoints - 1) * len) maxPoints Hm0).
  nia.
Qed.

Lemma bucket_reads_in_range (len maxPoints i j : nat) :
  maxPoints < len → 1 ≤ i ≤ maxPoints - 2 →
  j < bucketEnd len maxPoints i → j < len - 1.
Proof.
  intros Hlt Hi Hj.
  pose proof (last_bucket_end len maxPoints Hlt ltac:(lia)).
  pose proof (bucketStart_mono len maxPoints (i + 1) (maxPoints - 2 + 1) ltac:(lia)).
  rewrite <- !bucketEnd_next in *. lia.
Qed.

(** *** The inner loop *)

Section InnerLoop.

Variable data : list FormattedDataPoint.
Variable d0 : FormattedDataPoint.

Local Abbreviation val := (valueAt data d0).

Lemma fold_maxStep_argStep (js : list nat) (k : nat) :
  fold_left (maxStep data d0) js (nth k data d0, value (nth k data d0))
  = (nth (fold_left (argStep data d0) js k) data d0,
     value (nth (fold_left (argStep data d0) js k) data d0)).
Proof.
  revert k. induction js as [|j js IH]; intros k; [done|].
  cbn [fold_left]. unfold maxStep at 2, argStep at 2 4. cbn [snd].
  destruct (Qgtb _ _); apply IH.
Qed.

Lemma bucketMax_at_argmax (bStart bEnd : nat) :
  bucketMax data d0 bStart bEnd = nth (bucketArgMax data d0 bStart bEnd) data d0.
Proof.
  unfold bucketMax, bucketArgMax. cbv zeta. by rewrite fold_maxStep_argStep.
Qed.

(** After [len] turns from [bStart], the loop holds the first position of
    the largest value met so far. *)
Lemma argmax_invariant (bStart len : nat) :
  let k := fold_left (argStep data d0) (seq bStart len) bStart in
  bStart ≤ k ∧ (k = bStart ∨ k < bStart + len)
  ∧ (∀ j, bStart ≤ j < bStart + len → (val j <= val k)%Q)
  ∧ (∀ j, bStart ≤ j < k → (val j < val k)%Q).
Proof.
  induction len as [|len IH]; cbv zeta.
  - cbn. repeat split; [lia | by left | intros; lia | intros; lia].
  - rewrite seq_S, fold_left_app. cbn [fold_left].
    set (k := fold_left (argStep data d0) (seq bStart len) bStart) in *.
    destruct IH as (Hlo & Hhi & Hmax & Hfirst).
    unfold argStep. destruct (Qgtb _ _) eqn:E.
    + apply Qgtb_true in E. fold (val k) (val (bStart + len)) in E.
      repeat split; [lia | right; lia | |].
      * intros j Hj. destruct (decide (j = bStart + len)) as [->|Hne].
        { apply Qle_refl. }
        apply Qle_trans with (val k); [apply Hmax; lia | by apply Qlt_le_weak].
      * intros j Hj. apply Qle_lt_trans with (val k); [apply Hmax; lia | done].
    + apply Qgtb_false in E. fold (val k) (val (bStart + len)) in E.
      repeat split; [lia | destruct Hhi; [by left | right; lia] | | done].
      intros j Hj. destruct (decide (j = bStart + len)) as [->|Hne]; [done|].
      apply Hmax; lia.
Qed.

Lemma bucketArgMax_spec (bStart bEnd : nat) :
  bStart < bEnd →
  let k := bucketArgMax data d0 bStart bEnd in
  bStart ≤ k < bEnd
  ∧ (∀ j, bStart ≤ j < bEnd → (val j <= val k)%Q)
  ∧ (∀ j, bStart ≤ j < k → (val j < val k)%Q).
Proof.
  intros Hlt. cbv zeta. unfold bucketArgMax.
  destruct (argmax_invariant bStart (bEnd - bStart)) as (Hlo & Hhi & Hmax & Hfirst).
  repeat split; [done | lia | | done].
  intros j Hj. apply Hmax. lia.
Qed.

End InnerLoop.

(** *** The result, position by position *)

Lemma decimateData_length (data : list FormattedDataPoint) (maxPoints : nat) :
  length (decimateData data maxPoints)
  = if length data <=? maxPoints then length data else 2 + (maxPoints - 2).
Proof.
  unfold decimateData. destruct (length data <=? maxPoints) eqn:E; [done|].
  destruct data as [|d0 rest]; [done|].
  cbn [length]. rewrite length_app, length_map, length_seq. cbn. lia.
Qed.

Lemma map_nth_seq (data : list FormattedDataPoint) (d : FormattedDataPoint) :
  map (λ k, nth k data d) (seq 0 (length data)) = data.
Proof.
  apply list_eq. intros i. rewrite list_lookup_fmap.
  destruct (decide (i < length data)) as [Hi|Hi].
  - rewrite lookup_seq_lt by done. cbn.
    destruct (nth_lookup_or_length data i d) as [->|]; [done | lia].
  - rewrite lookup_seq_ge by lia. cbn. symmetry. apply lookup_ge_None. lia.
Qed.

(** Representatives taken one per cell of an increasing subdivision [f] are
    strictly increasing. *)
Lemma sorted_representatives (f g : nat → nat) (a len : nat) :
  (∀ i j, i ≤ j → f i ≤ f j) →
  (∀ i, a ≤ i < a + len → f i ≤ g i < f (i + 1)) →
  StronglySorted lt (map g (seq a len))
  ∧ Forall (λ x, f a ≤ x < f (a + len)) (map g (seq a len)).
Proof.
  intros Hmono. revert a. induction len as [|len IH]; intros a Hg.
  - cbn. split; constructor.
  - cbn [seq map]. destruct (IH (S a)) as [Hs Hb]; [intros i Hi; apply Hg; lia|].
    pose proof (Hg a ltac:(lia)) as Ha.
    replace (a + 1) with (S a) in Ha by lia.
    replace (S a + len) with (a + S len) in Hb by lia.
    split; constructor.
    + done.
    + eapply Forall_impl; [exact Hb|]. cbn. intros x Hx. lia.
    + pose proof (Hmono (S a) (a + S len) ltac:(lia)). lia.
    + eapply Forall_impl; [exact Hb|]. cbn. intros x Hx.
      pose proof (Hmono a (S a) ltac:(lia)). lia.
Qed.

Lemma StronglySorted_lt_le (l : list nat) : StronglySorted lt l → StronglySorted le l.
Proof.
  induction 1 as [|x l Hs IH Hx]; constructor; [done|].
  eapply Forall_impl; [exact Hx|]. cbn. lia.
Qed.

(** The positions of the bucket representatives: increasing, from the first
    bucket's start to before the last bucket's end. *)
Lemma bucket_indices (data : list FormattedDataPoint) (d0 : FormattedDataPoint)
    (maxPoints : nat) :
  maxPoints < length data →
  let ks := map (λ i, bucketArgMax data d0
                        (bucketStart (length data) maxPoints i)
                        (bucketEnd (length data) maxPoints i))
                (seq 1 (maxPoints - 2)) in
  StronglySorted lt ks ∧ Forall (λ k, 1 ≤ k < length data - 2) ks.
Proof.
  intros Hlt. cbv zeta.
  destruct (decide (maxPoints - 2 = 0)) as [->|Hm]; [split; constructor|].
  destruct (sorted_representatives
              (bucketStart (length data) maxPoints)
              (λ i, bucketArgMax data d0
                      (bucketStart (length data) maxPoints i)
                      (bucketEnd (length data) maxPoints i))
              1 (maxPoints - 2)) as [Hs Hb].
  - intros i j Hij. by apply bucketStart_mono.
  - intros i Hi. rewrite <- bucketEnd_next.
    apply (bucketArgMax_spec data d0). apply bucket_nonempty; lia.
  - split; [done|]. eapply Forall_impl; [exact Hb|]. cbn. intros k Hk.
    pose proof (first_bucket_start (length data) maxPoints Hlt ltac:(lia)).
    pose proof (last_bucket_end (length data) maxPoints Hlt ltac:(lia)) as Hend.
    rewrite bucketEnd_next in Hend.
    replace (maxPoints - 2 + 1) with (S (maxPoints - 2)) in Hend by lia. lia.
Qed.

(** [decimateData] reads its result in [data] at the positions
    [decimatedIndices], which are inside the array and never decrease. *)
Lemma decimateData_indices (data : list FormattedDataPoint) (maxPoints : nat)
    (d : FormattedDataPoint) :
  decimateData data maxPoints = map (λ k, nth k data d) (decimatedIndices data maxPoints)
  ∧ Forall (λ k, k < length data) (decimatedIndices data maxPoints)
  ∧ StronglySorted le (decimatedIndices data maxPoints).
Proof.
  unfold decimateData, decimatedIndices.
  destruct (length data <=? maxPoints) eqn:E.
  - split; [by rewrite map_nth_seq|]. split.
    + apply Forall_forall. intros k Hk%elem_of_seq. lia.
    + apply StronglySorted_lt_le.
      destruct (sorted_representatives (λ i, i) (λ i, i) 0 (length data)) as [Hs _];
        [lia | lia |]. by rewrite map_id in Hs.
  - apply Nat.leb_gt in E. destruct data as [|d0 rest]; [cbn in E; lia|].
    set (data := d0 :: rest) in *.
    assert (Hlen : 1 ≤ length data) by (cbn; lia).
    destruct (bucket_indices data d0 maxPoints E) as [Hs Hb].
    split; [|split].
    + cbn [map]. rewrite map_app, map_map. cbn [map]. f_equal. f_equal.
      * apply map_ext_in. intros i Hi. rewrite bucketMax_at_argmax.
        apply nth_indep.
        eapply Forall_forall in Hb;
          [|apply list_elem_of_In, in_map_iff; exists i; split; [reflexivity|exact Hi]].
        cbv beta in Hb. lia.
      * f_equal. apply nth_indep. lia.
    + constructor; [lia|]. apply Forall_app. split.
      * eapply Forall_impl; [exact Hb|]. cbv beta. lia.
      * constructor; [lia | constructor].
    + constructor.
      * apply StronglySorted_app_2.
        -- intros x1 x2 Hx1 ->%list_elem_of_singleton.
           eapply Forall_forall in Hb; [|exact Hx1]. cbv beta in Hb. lia.
        -- by apply StronglySorted_lt_le.
        -- repeat constructor.
      * apply Forall_forall. intros; lia.
Qed.

(** In the decimating branch the result is the first point, the bucket
    representatives in bucket order, and the last point. *)
Lemma decimateData_unfold (d0 : FormattedDataPoint) (rest : list FormattedDataPoint)
    (maxPoints : nat) :
  let data := d0 :: rest in
  maxPoints < length data →
  decimateData data maxPoints
  = d0 :: map (λ i, bucketMax data d0
                      (bucketStart (length data) maxPoints i)
                      (bucketEnd (length data) maxPoints i))
              (seq 1 (maxPoints - 2))
       ++ [nth (length data - 1) data d0].
Proof.
  cbv zeta. intros Hlt. unfold decimateData.
  destruct (length (d0 :: rest) <=? maxPoints) eqn:E; [|done].
  apply Nat.leb_le in E. lia.
Qed.

Lemma decimateData_bucket (d0 : FormattedDataPoint) (rest : list FormattedDataPoint)
    (maxPoints i : nat) :
  let data := d0 :: rest in
  maxPoints < length data → 1 ≤ i ≤ maxPoints - 2 →
  decimateData data maxPoints !! i
  = Some (bucketMax data d0
            (bucketStart (length data) maxPoints i)
            (bucketEnd (length data) maxPoints i)).
Proof.
  cbv zeta. intros Hlt Hi.
  rewrite decimateData_unfold by done.
  destruct i as [|i]; [lia|]. rewrite lookup_cons.
  rewrite lookup_app_l by (rewrite length_map, length_seq; lia).
  change (map ?f ?l) with (f <$> l).
  rewrite list_lookup_fmap, lookup_seq_lt by lia. done.
Qed.

(** Every index between the ends of an increasing subdivision lies in one
    of its cells. *)
Lemma cell_exists (f : nat → nat) (a len k : nat) :
  f a ≤ k < f (a + len) → ∃ i, a ≤ i < a + len ∧ f i ≤ k < f (i + 1).
Proof.
  induction len as [|len IH]; intros Hk.
  - replace (a + 0) with a in Hk by lia. lia.
  - destruct (decide (k < f (a + len))) as [Hlt|Hge].
    + destruct IH as (i & Hi & Hc); [lia|]. exists i. split; [lia | done].
    + exists (a + len). replace (a + len + 1) with (a + S len) by lia. lia.
Qed.

Lemma last_nth (d0 : FormattedDataPoint) (rest : list FormattedDataPoint) :
  last (d0 :: rest) = Some (nth (length (d0 :: rest) - 1) (d0 :: rest) d0).
Proof.
  rewrite last_lookup. cbn [length Nat.pred].
  replace (S (length rest) - 1) with (length rest) by lia.
  destruct (nth_lookup_or_length (d0 :: rest) (length rest) d0) as [->|Hge];
    [done | cbn in Hge; lia].
Qed.

Lemma decimateData_short (data : list FormattedDataPoint) (maxPoints : nat) :
  length data ≤ maxPoints → decimateData data maxPoints = data.
Proof.
  intros Hle. unfold decimateData.
  destruct (length data <=? maxPoints) eqn:E; [done|].
  apply Nat.leb_gt in E. lia.
Qed.

(** *** The claims on [decimateData] *)

(** C7.  [decimateData] is the identity whenever
    [length(points) <= maxPoints]: it returns the input sequence unchanged. *)
Theorem decimateData_identity (data : list FormattedDataPoint) (maxPoints : nat) :
  length data ≤ maxPoints → decimateData data maxPoints = data.
Proof. apply decimateData_short. Qed.

Lemma decimateData_identity_witness :
  length (scenario 0 1 2 3 4) ≤ 5
  ∧ decimateData (scenario 0 1 2 3 4) 5 = scenario 0 1 2 3 4.
Proof.
  split; [cbn; lia | apply decimateData_identity; cbn; lia].
Defined.

(** *** Any integer budget *)

(** On a non-empty array, and on every array when [maxPoints] is not
    negative, every entry of the result is defined and the result is that
    of [decimateData] at the budget [Z.to_nat maxPoints]. *)
Lemma decimateDataInt_budget (data : list FormattedDataPoint) (maxPoints : Z) :
  data ≠ [] ∨ (0 ≤ maxPoints)%Z →
  decimateDataInt data maxPoints = Some <$> decimateData data (Z.to_nat maxPoints).
Proof.
  intros Hdom. unfold decimateDataInt, decimateData.
  destruct (Z.leb_spec (Z.of_nat (length data)) maxPoints) as [Hle|Hgt].
  - destruct (Nat.leb_spec (length data) (Z.to_nat maxPoints)); [done | lia].
  - destruct data as [|d0 rest].
    + cbn [length] in Hgt. destruct Hdom; [done | lia].
    + destruct (Nat.leb_spec (length (d0 :: rest)) (Z.to_nat maxPoints)) as [Hle|_].
      * cbn [length] in *. lia.
      * by replace (Z.to_nat (maxPoints - 2)) with (Z.to_nat maxPoints - 2) by lia.
Qed.

Lemma decimateDataInt_empty (maxPoints : Z) :
  decimateDataInt [] maxPoints = if (0 <=? maxPoints)%Z then [] else [None; None].
Proof. unfold decimateDataInt. change (Z.of_nat (length [])) with 0%Z. by destruct (0 <=? maxPoints)%Z. Qed.

(** The first point, the last point and the number of points. *)
Lemma decimateData_ends (data : list FormattedDataPoint) (maxPoints : nat) :
  data ≠ [] →
  head (decimateData data maxPoints) = head data
  ∧ last (decimateData data maxPoints) = last data
  ∧ length (decimateData data maxPoints) ≤ Nat.max maxPoints 2
  ∧ (maxPoints ≤ 2 → maxPoints < length data →
     ∃ first final, head data = Some first ∧ last data = Some final
                    ∧ decimateData data maxPoints = [first; final]).
Proof.
  intros Hne. destruct data as [|d0 rest]; [done|].
  pose proof (last_nth d0 rest) as Hlast.
  repeat split.
  - unfold decimateData. by destruct (_ <=? _).
  - destruct (decide (length (d0 :: rest) ≤ maxPoints)) as [Hle|Hgt].
    + by rewrite decimateData_short.
    + rewrite decimateData_unfold by lia.
      rewrite app_comm_cons, last_snoc. by rewrite Hlast.
  - rewrite decimateData_length. destruct (_ <=? _) eqn:E; [|lia].
    apply Nat.leb_le in E. lia.
  - intros Hm Hlt. exists d0, (nth (length (d0 :: rest) - 1) (d0 :: rest) d0).
    split; [done|]. split; [done|].
    rewrite decimateData_unfold by done.
    by replace (maxPoints - 2) with 0 by lia.
Qed.

(** When [decimateData] decimates, the positions it reads are [0], one
    position inside each bucket, in bucket order, and [length - 1]. *)
Lemma decimatedIndices_buckets (data : list FormattedDataPoint) (maxPoints : nat) :
  maxPoints < length data →
  ∃ representatives,
    decimatedIndices data maxPoints = 0 :: representatives ++ [length data - 1]
    ∧ length representatives = maxPoints - 2
    ∧ (∀ i k, representatives !! i = Some k →
              bucketStart (length data) maxPoints (i + 1) ≤ k
                < bucketEnd (length data) maxPoints (i + 1))
    ∧ (2 ≤ length data → StronglySorted lt (decimatedIndices data maxPoints)).
Proof.
  intros Hlt. unfold decimatedIndices.
  destruct (Nat.leb_spec (length data) maxPoints) as [|_]; [lia|].
  destruct data as [|d0 rest]; [cbn in Hlt; lia|].
  set (data := d0 :: rest) in *.
  set (reps := map (λ i, bucketArgMax data d0
                           (bucketStart (length data) maxPoints i)
                           (bucketEnd (length data) maxPoints i))
                   (seq 1 (maxPoints - 2))).
  destruct (bucket_indices data d0 maxPoints Hlt) as [Hs Hb]. fold reps in Hs, Hb.
  exists reps. split; [done|]. split; [|split].
  - unfold reps. by rewrite length_map, length_seq.
  - intros i k Hk. unfold reps in Hk.
    change (map ?f ?l) with (f <$> l) in Hk.
    rewrite list_lookup_fmap in Hk.
    destruct (seq 1 (maxPoints - 2) !! i) as [j|] eqn:Hj; [|done].
    apply lookup_seq in Hj as [-> Hi]. injection Hk as <-.
    replace (i + 1) with (1 + i) by lia.
    apply (bucketArgMax_spec data d0). apply bucket_nonempty; lia.
  - intros Hn. constructor.
    + apply StronglySorted_app_2.
      * intros x1 x2 Hx1 ->%list_elem_of_singleton.
        eapply Forall_forall in Hb; [|exact Hx1]. cbv beta in Hb. lia.
      * done.
      * repeat constructor.
    + apply Forall_app. split.
      * eapply Forall_impl; [exact Hb|]. cbv beta. lia.
      * constructor; [lia | constructor].
Qed.

(** C10, as the code has it.  On a non-empty input, and on the empty input
    when [maxPoints] is not negative, every entry of the result is the
    point of the input at some index; these indices are inside the array
    and never decrease, so the result keeps the chronological order of the
    input and holds no point that the input does not hold.  When the
    function does not decimate, the indices are all the indices; when it
    does, they are [0], then for each bucket, in bucket order, an index
    inside that bucket, then [length - 1], and they increase strictly on an
    input of two points or more. *)
Theorem decimateData_subsequence (data : list FormattedDataPoint) (maxPoints : Z) :
  data ≠ [] ∨ (0 ≤ maxPoints)%Z →
  let n := length data in
  let m := Z.to_nat maxPoints in
  ∃ indices : list nat,
    decimateDataInt data maxPoints = (λ k, data !! k) <$> indices
    ∧ Forall (λ k, k < n) indices
    ∧ StronglySorted le indices
    ∧ ((Z.of_nat n ≤ maxPoints)%Z → indices = seq 0 n)
    ∧ ((maxPoints < Z.of_nat n)%Z →
       ∃ representatives,
         indices = 0 :: representatives ++ [n - 1]
         ∧ length representatives = m - 2
         ∧ (∀ i k, representatives !! i = Some k →
                   bucketStart n m (i + 1) ≤ k < bucketEnd n m (i + 1))
         ∧ (2 ≤ n → StronglySorted lt indices))
    ∧ (∀ entry, entry ∈ decimateDataInt data maxPoints →
                ∃ p, entry = Some p ∧ p ∈ data).
Proof.
  intros Hdom. cbv zeta.
  set (d := mkPoint None 0).
  destruct (decimateData_indices data (Z.to_nat maxPoints) d) as (Heq & Hin & Hsorted).
  assert (Hread : decimateDataInt data maxPoints
                  = (λ k, data !! k) <$> decimatedIndices data (Z.to_nat maxPoints)).
  { rewrite decimateDataInt_budget, Heq by done.
    change (map ?f ?l) with (f <$> l). rewrite <- list_fmap_compose.
    apply Forall_fmap_ext_1. eapply Forall_impl; [exact Hin|]. cbv beta.
    intros k Hk. cbn. destruct (nth_lookup_or_length data k d) as [->|]; [done | lia]. }
  exists (decimatedIndices data (Z.to_nat maxPoints)).
  split; [done|]. split; [done|]. split; [done|]. split; [|split].
  - intros Hle. unfold decimatedIndices.
    destruct (Nat.leb_spec (length data) (Z.to_nat maxPoints)); [done | lia].
  - intros Hlt. apply decimatedIndices_buckets.
    destruct Hdom as [Hne|Hm]; [|lia].
    destruct data; [done | cbn [length] in *; lia].
  - intros entry Hentry. rewrite Hread in Hentry.
    apply list_elem_of_fmap in Hentry as (k & -> & Hk).
    eapply Forall_forall in Hin; [|exact Hk]. cbv beta in Hin.
    destruct (lookup_lt_is_Some_2 data k Hin) as [p Hp].
    exists p. split; [done|]. by eapply list_elem_of_lookup_2.
Qed.

Lemma decimateData_subsequence_witness :
  (scenario 0 1 2 3 4 ≠ [] ∨ (0 ≤ 3)%Z)
  ∧ ∃ indices : list nat,
      decimateDataInt (scenario 0 1 2 3 4) 3
      = (λ k, scenario 0 1 2 3 4 !! k) <$> indices
      ∧ Forall (λ k, k < length (scenario 0 1 2 3 4)) indices
      ∧ StronglySorted le indices.
Proof.
  assert (Hdom : scenario 0 1 2 3 4 ≠ [] ∨ (0 ≤ 3)%Z) by (right; lia).
  destruct (decimateData_subsequence (scenario 0 1 2 3 4) 3 Hdom)
    as (indices & H1 & H2 & H3 & _).
  exact (conj Hdom (ex_intro _ indices (conj H1 (conj H2 H3)))).
Defined.

(** C10, as stated, fails: on the empty input with a negative [maxPoints]
    the result has two entries, both [undefined], which the input does not
    hold. *)
Lemma decimateData_undefined_entries :
  decimateDataInt [] (-1) = [None; None]
  ∧ ¬ (∀ entry, entry ∈ decimateDataInt [] (-1) →
                ∃ p : FormattedDataPoint, entry = Some p ∧ p ∈ []).
Proof.
  split; [done|]. intros H.
  destruct (H None) as (p & Hp & _); [apply list_elem_of_here | discriminate Hp].
Qed.

(** C1, as the code has it.  On the five points of the scenario with
    [maxPoints = 3], the single middle bucket spans the indices 1 and 2, and
    the result is [(t0,1)], [(t1,5)], [(t4,1)]. *)
Theorem scenario_result (t0 t1 t2 t3 t4 : Z) :
  bucketStart 5 3 1 = 1 ∧ bucketEnd 5 3 1 = 3
  ∧ decimateData (scenario t0 t1 t2 t3 t4) 3
    = [ mkPoint (Some t0) 1; mkPoint (Some t1) 5; mkPoint (Some t4) 1 ].
Proof. repeat split. Qed.

(** C1, as stated, fails: the point [(t3,9)] is not in the result. *)
Lemma scenario_result_not_t3 :
  decimateData (scenario 0 1 2 3 4) 3
    ≠ [ mkPoint (Some 0%Z) 1; mkPoint (Some 3%Z) 9; mkPoint (Some 4%Z) 1 ]
  ∧ mkPoint (Some 3%Z) 9 ∉ decimateData (scenario 0 1 2 3 4) 3.
Proof.
  change (decimateData (scenario 0 1 2 3 4) 3)
    with [ mkPoint (Some 0%Z) 1; mkPoint (Some 1%Z) 5; mkPoint (Some 4%Z) 1 ].
  split; [discriminate|]. intros H. not_in_list H.
Qed.

(** C6, as the code has it.  For a non-empty input and any integer
    [maxPoints], every entry of the result is a point, the result starts
    with the first point of the input and ends with its last point, and it
    has at most [max(maxPoints, 2)] points, hence at most [maxPoints] when
    [maxPoints >= 2]; for [maxPoints <= 2] and a longer input the result is
    exactly the first and the last point.  The empty input gives the empty
    result when [maxPoints] is not negative, and two [undefined] entries
    when it is. *)
Theorem decimateData_endpoints (data : list FormattedDataPoint) (maxPoints : Z) :
  (data ≠ [] →
   ∃ result first final,
     decimateDataInt data maxPoints = Some <$> result
     ∧ head data = Some first ∧ last data = Some final
     ∧ head result = Some first ∧ last result = Some final
     ∧ (Z.of_nat (length result) ≤ Z.max maxPoints 2)%Z
     ∧ ((maxPoints ≤ 2)%Z → (maxPoints < Z.of_nat (length data))%Z →
        result = [first; final]))
  ∧ ((0 ≤ maxPoints)%Z → decimateDataInt [] maxPoints = [])
  ∧ ((maxPoints < 0)%Z → decimateDataInt [] maxPoints = [None; None]).
Proof.
  split; [|split].
  - intros Hne.
    destruct (decimateData_ends data (Z.to_nat maxPoints) Hne) as (Hh & Hl & Hlen & Htwo).
    destruct data as [|d0 rest]; [done|].
    destruct (last (d0 :: rest)) as [final|] eqn:Hlast;
      [|by rewrite last_nth in Hlast].
    exists (decimateData (d0 :: rest) (Z.to_nat maxPoints)), d0, final.
    split; [apply decimateDataInt_budget; by left|].
    split; [done|]. split; [done|]. split; [done|]. split; [done|]. split; [lia|].
    intros Hm Hlt. destruct Htwo as (first' & final' & Hf & Hf' & ->);
      [lia | cbn [length] in *; lia |].
    cbn in Hf. congruence.
  - intros Hm. rewrite decimateDataInt_empty.
    by destruct (Z.leb_spec 0 maxPoints); [|lia].
  - intros Hm. rewrite decimateDataInt_empty.
    by destruct (Z.leb_spec 0 maxPoints); [lia|].
Qed.

Lemma decimateData_endpoints_witness :
  scenario 0 1 2 3 4 ≠ []
  ∧ ∃ result first final,
      decimateDataInt (scenario 0 1 2 3 4) 3 = Some <$> result
      ∧ head (scenario 0 1 2 3 4) = Some first ∧ last (scenario 0 1 2 3 4) = Some final
      ∧ head result = Some first ∧ last result = Some final
      ∧ (Z.of_nat (length result) ≤ Z.max 3 2)%Z
      ∧ ((3 ≤ 2)%Z → (3 < Z.of_nat (length (scenario 0 1 2 3 4)))%Z →
         result = [first; final]).
Proof.
  assert (Hne : scenario 0 1 2 3 4 ≠ []) by discriminate.
  destruct (decimateData_endpoints (scenario 0 1 2 3 4) 3) as (H & _).
  exact (conj Hne (H Hne)).
Defined.

(** C6, as stated, fails: with a budget of one point, two points come back. *)
Lemma decimateData_over_budget :
  twoPoints ≠ []
  ∧ decimateDataInt twoPoints 1 = Some <$> twoPoints
  ∧ ¬ (Z.of_nat (length (decimateDataInt twoPoints 1)) ≤ 1)%Z.
Proof.
  split; [discriminate|]. split; [done|].
  change (decimateDataInt twoPoints 1) with (Some <$> twoPoints).
  rewrite length_fmap. cbn [twoPoints length]. lia.
Qed.

(** C2, as the code has it.  For [length(points) > maxPoints > 2] the
    interior buckets are the [maxPoints - 2] index ranges from
    [bucketStart i] up to, not including, [bucketEnd i], for
    [i = 1 .. maxPoints - 2]: non-empty, contiguous, of size
    [floor(length / maxPoints)] or one more.  Together they cover, each index
    once, the range from [floor(length / maxPoints) >= 1] up to, not
    including, [bucketEnd (maxPoints - 2) <= length - 2], so the indices from
    there to [length - 2] are in no bucket.  The result holds at position
    [i] the first point of maximum value of the [i]-th bucket. *)
Theorem interior_buckets (data : list FormattedDataPoint) (maxPoints : nat) :
  maxPoints < length data → 2 < maxPoints →
  let n := length data in
  let inBucket i k :=
    1 ≤ i ≤ maxPoints - 2 ∧ bucketStart n maxPoints i ≤ k < bucketEnd n maxPoints i in
  (∀ i, 1 ≤ i ≤ maxPoints - 2 →
     bucketStart n maxPoints i < bucketEnd n maxPoints i
     ∧ bucketEnd n maxPoints i = bucketStart n maxPoints (i + 1)
     ∧ n / maxPoints ≤ bucketEnd n maxPoints i - bucketStart n maxPoints i
         ≤ n / maxPoints + 1)
  ∧ bucketStart n maxPoints 1 = n / maxPoints
  ∧ 1 ≤ bucketStart n maxPoints 1
  ∧ bucketEnd n maxPoints (maxPoints - 2) ≤ n - 2
  ∧ (∀ k, (∃ i, inBucket i k)
          ↔ bucketStart n maxPoints 1 ≤ k < bucketEnd n maxPoints (maxPoints - 2))
  ∧ (∀ k i j, inBucket i k → inBucket j k → i = j)
  ∧ (∀ i, 1 ≤ i ≤ maxPoints - 2 →
     ∃ k p, inBucket i k
            ∧ data !! k = Some p
            ∧ decimateData data maxPoints !! i = Some p
            ∧ (∀ j q, bucketStart n maxPoints i ≤ j < bucketEnd n maxPoints i →
                      data !! j = Some q → (value q <= value p)%Q)
            ∧ (∀ j q, bucketStart n maxPoints i ≤ j < k →
                      data !! j = Some q → (value q < value p)%Q)).
Proof.
  intros Hlt Hm. cbv zeta.
  assert (Hm0 : maxPoints ≠ 0) by lia.
  pose proof (last_bucket_end (length data) maxPoints Hlt ltac:(lia)) as Hend.
  split; [|split; [|split; [|split; [|split; [|split]]]]].
  - intros i Hi. split; [by apply bucket_nonempty|]. split; [done|].
    by apply bucket_size.
  - unfold bucketStart. f_equal. lia.
  - by apply first_bucket_start.
  - done.
  - intros k. split.
    + intros (i & Hi & Hk). rewrite bucketEnd_next in *.
      pose proof (bucketStart_mono (length data) maxPoints 1 i ltac:(lia)).
      pose proof (bucketStart_mono (length data) maxPoints (i + 1) (maxPoints - 2 + 1)
                    ltac:(lia)).
      lia.
    + intros Hk. rewrite bucketEnd_next in Hk.
      replace (maxPoints - 2 + 1) with (1 + (maxPoints - 2)) in Hk by lia.
      destruct (cell_exists _ _ _ _ Hk) as (i & Hi & Hc).
      exists i. rewrite bucketEnd_next. split; [lia | done].
  - intros k i j (Hi & Hik) (Hj & Hjk). rewrite !bucketEnd_next in *.
    destruct (Nat.lt_trichotomy i j) as [Hij|[->|Hij]]; [|done|].
    + pose proof (bucketStart_mono (length data) maxPoints (i + 1) j ltac:(lia)). lia.
    + pose proof (bucketStart_mono (length data) maxPoints (j + 1) i ltac:(lia)). lia.
  - intros i Hi. destruct data as [|d0 rest]; [cbn in Hlt; lia|].
    set (data := d0 :: rest) in *.
    pose proof (bucket_nonempty (length data) maxPoints i Hlt Hm0) as Hne.
    destruct (bucketArgMax_spec data d0 _ _ Hne) as (Hk & Hmax & Hfirst).
    set (k := bucketArgMax data d0 (bucketStart (length data) maxPoints i)
                (bucketEnd (length data) maxPoints i)) in *.
    pose proof (bucket_reads_in_range (length data) maxPoints i) as Hrange.
    exists k, (nth k data d0). split; [done|]. split; [|split; [|split]].
    + destruct (nth_lookup_or_length data k d0) as [->|Hge]; [done|].
      pose proof (Hrange k Hlt Hi ltac:(lia)). lia.
    + subst data. rewrite decimateData_bucket by done.
      by rewrite bucketMax_at_argmax.
    + intros j q Hj Hq. rewrite <- (nth_lookup_Some _ _ d0 _ Hq). by apply Hmax.
    + intros j q Hj Hq. rewrite <- (nth_lookup_Some _ _ d0 _ Hq). by apply Hfirst.
Qed.

Lemma interior_buckets_witness :
  3 < length (scenario 0 1 2 3 4) ∧ 2 < 3
  ∧ bucketEnd (length (scenario 0 1 2 3 4)) 3 (3 - 2) ≤ length (scenario 0 1 2 3 4) - 2.
Proof.
  assert (H1 : 3 < length (scenario 0 1 2 3 4)) by (cbn; lia).
  assert (H2 : 2 < 3) by lia.
  destruct (interior_buckets (scenario 0 1 2 3 4) 3 H1 H2) as (_ & _ & _ & H & _).
  exact (conj H1 (conj H2 H)).
Defined.

(** C2, as stated, fails: in the scenario the interior index 3, which holds
    the largest value, is in no bucket, and its point is not kept. *)
Lemma interior_index_uncovered :
  3 < length (scenario 0 1 2 3 4) ∧ 2 < 3
  ∧ 1 ≤ 3 ≤ length (scenario 0 1 2 3 4) - 2
  ∧ (¬ ∃ i, 1 ≤ i ≤ 3 - 2
            ∧ bucketStart (length (scenario 0 1 2 3 4)) 3 i ≤ 3
                < bucketEnd (length (scenario 0 1 2 3 4)) 3 i)
  ∧ scenario 0 1 2 3 4 !! 3 ∉ Some <$> decimateData (scenario 0 1 2 3 4) 3.
Proof.
  cbn [scenario length].
  split; [lia|]. split; [lia|]. split; [lia|]. split.
  - intros (i & Hi & Hk). assert (i = 1) as -> by lia.
    change (bucketEnd 5 3 1) with 3 in Hk. lia.
  - change (decimateData _ 3)
      with [ mkPoint (Some 0%Z) 1; mkPoint (Some 1%Z) 5; mkPoint (Some 4%Z) 1 ].
    cbn. intros H. not_in_list H.
Qed.

End DecimatorFacts.

(** ** The nearest-timestamp lookup *)

Module NearestPointFacts.

Import NearestPoint.

Open Scope Z_scope.

(** *** The binary search *)

(** The loop invariant: left of [left_] every entry is below the pointer,
    right of [right_] none is, and [closestIndex] is at least as near as the
    two entries next to the interval.  On exit [closestIndex] is a nearest
    entry of the whole array. *)
Lemma search_nearest (ts : list Z) (m left_ right_ closestIndex : Z) :
  let n := Z.of_nat (length ts) in
  (∀ i j, 0 ≤ i ∧ i ≤ j < n → at_index ts i ≤ at_index ts j) →
  0 ≤ left_ → right_ < n → left_ ≤ right_ + 1 → 0 ≤ closestIndex < n →
  (∀ j, 0 ≤ j < left_ → at_index ts j < m) →
  (∀ j, right_ < j < n → m ≤ at_index ts j) →
  (0 < left_ → distance ts m closestIndex ≤ distance ts m (left_ - 1)) →
  (right_ < n - 1 → distance ts m closestIndex ≤ distance ts m (right_ + 1)) →
  0 ≤ search ts m left_ right_ closestIndex < n
  ∧ ∀ j, 0 ≤ j < n →
         distance ts m (search ts m left_ right_ closestIndex) ≤ distance ts m j.
Proof.
  cbv zeta. funelim (search ts m left_ right_ closestIndex);
    intros Hsorted Hl Hr Hlr Hc Hbelow Habove Hnl Hnr.
  - clear Heqcall. pose proof (proj1 (Z.leb_le _ _) Hle) as Hle'.
    set (mid := (left_ + right_) `div` 2) in *.
    assert (Hmid : left_ ≤ mid ≤ right_)
      by (subst mid; split;
          [apply Z.div_le_lower_bound | apply Z.div_le_upper_bound]; lia).
    set (c' := if distance sortedTimestamps mouseDate mid
                  <? distance sortedTimestamps mouseDate closestIndex
               then mid else closestIndex) in *.
    assert (Hc' : 0 ≤ c' < Z.of_nat (length sortedTimestamps)
                  ∧ distance sortedTimestamps mouseDate c'
                    ≤ distance sortedTimestamps mouseDate mid
                  ∧ distance sortedTimestamps mouseDate c'
                    ≤ distance sortedTimestamps mouseDate closestIndex).
    { subst c'. destruct (Z.ltb_spec (distance sortedTimestamps mouseDate mid)
                            (distance sortedTimestamps mouseDate closestIndex)); lia. }
    destruct Hc' as (Hc'r & Hc'm & Hc'c).
    destruct (Z.ltb_spec (at_index sortedTimestamps mid) mouseDate) as [Hlt|Hge].
    + apply H; try lia; [done | ..].
      * intros j Hj. pose proof (Hsorted j mid ltac:(lia)). lia.
      * intros j Hj. apply Habove. lia.
      * intros _. by replace (mid + 1 - 1) with mid by lia.
    + apply H0; try lia; [done | ..].
      * intros j Hj. apply Hbelow. lia.
      * intros j Hj. pose proof (Hsorted mid j ltac:(lia)). lia.
      * intros _. by replace (mid - 1 + 1) with mid by lia.
  - pose proof (proj1 (Z.leb_gt _ _) e) as Hgt.
    assert (left_ = right_ + 1) as -> by lia.
    split; [done|]. intros j Hj. unfold distance in *.
    destruct (decide (j ≤ right_)) as [Hjr|Hjr].
    + pose proof (Hbelow j ltac:(lia)). pose proof (Hbelow right_ ltac:(lia)).
      pose proof (Hsorted j right_ ltac:(lia)).
      specialize (Hnl ltac:(lia)). replace (right_ + 1 - 1) with right_ in Hnl by lia.
      lia.
    + pose proof (Habove j ltac:(lia)). pose proof (Habove (right_ + 1) ltac:(lia)).
      pose proof (Hsorted (right_ + 1) j ltac:(lia)).
      specialize (Hnr ltac:(lia)). lia.
Qed.

Lemma at_index_lookup (ts : list Z) (i : Z) :
  0 ≤ i < Z.of_nat (length ts) → ts !! Z.to_nat i = Some (at_index ts i).
Proof.
  intros Hi. unfold at_index.
  destruct (nth_lookup_or_length ts (Z.to_nat i) 0) as [->|Hge]; [done | lia].
Qed.

(** The index that the loop returns is inside the array, sorted or not; the
    loop reads the array at [mid] and at [closestIndex] only. *)
Lemma search_reads_in_range (ts : list Z) (m left_ right_ closestIndex : Z) :
  0 ≤ left_ → right_ < Z.of_nat (length ts) →
  0 ≤ closestIndex < Z.of_nat (length ts) →
  0 ≤ search ts m left_ right_ closestIndex < Z.of_nat (length ts).
Proof.
  funelim (search ts m left_ right_ closestIndex); intros Hl Hr Hc; [|done].
  clear Heqcall. pose proof (proj1 (Z.leb_le _ _) Hle) as Hle'.
  assert (left_ ≤ (left_ + right_) `div` 2 ≤ right_)
    by (split; [apply Z.div_le_lower_bound | apply Z.div_le_upper_bound]; lia).
  destruct (_ <? mouseDate); [apply H | apply H0]; try lia.
  all: destruct (_ <? _); lia.
Qed.

Lemma sorted_lookup_lt (ts : list Z) (i j : nat) (x y : Z) :
  StronglySorted Z.lt ts → ts !! i = Some x → ts !! j = Some y → (i < j)%nat → x < y.
Proof.
  intros Hs. revert i j. induction Hs as [|t ts Hs IH Ht]; intros i j Hi Hj Hij.
  - done.
  - destruct j as [|j]; [lia|]. rewrite lookup_cons in Hj.
    destruct i as [|i].
    + injection Hi as <-. eapply Forall_forall in Ht; [exact Ht|].
      by eapply list_elem_of_lookup_2.
    + rewrite lookup_cons in Hi. eapply IH; eauto. lia.
Qed.

Lemma sorted_at_index (ts : list Z) :
  StronglySorted Z.lt ts →
  ∀ i j, 0 ≤ i ∧ i ≤ j < Z.of_nat (length ts) → at_index ts i ≤ at_index ts j.
Proof.
  intros Hs i j Hij. destruct (decide (i = j)) as [->|Hne]; [done|].
  apply Z.lt_le_incl.
  apply (sorted_lookup_lt ts (Z.to_nat i) (Z.to_nat j)); [done | | | lia].
  - apply at_index_lookup. lia.
  - apply at_index_lookup. lia.
Qed.

(** The handler finds an entry of the array that no entry beats. *)
Lemma selectedTimestamp_nearest (ts : list Z) (m : Z) :
  ts ≠ [] → StronglySorted Z.lt ts →
  ∃ q, selectedTimestamp ts m = Some q ∧ q ∈ ts
       ∧ ∀ t, t ∈ ts → Z.abs (q - m) ≤ Z.abs (t - m).
Proof.
  intros Hne Hs.
  assert (Hn : 0 < Z.of_nat (length ts)) by (destruct ts; [done | cbn; lia]).
  destruct (search_nearest ts m 0 (Z.of_nat (length ts) - 1) 0) as [Hr Hmin];
    try lia; [by apply sorted_at_index|].
  fold (closestIndexOf ts m) in Hr, Hmin.
  exists (at_index ts (closestIndexOf ts m)). split; [|split].
  - unfold selectedTimestamp. destruct (Nat.eqb_spec (length ts) 0); [lia | done].
  - eapply list_elem_of_lookup_2. by apply at_index_lookup.
  - intros t [k Hk]%list_elem_of_lookup.
    pose proof (lookup_lt_Some _ _ _ Hk) as Hlt.
    specialize (Hmin (Z.of_nat k) ltac:(lia)). unfold distance in Hmin.
    assert (at_index ts (Z.of_nat k) = t) as <-; [|done].
    unfold at_index. rewrite Nat2Z.id. by apply nth_lookup_Some.
Qed.

(** *** The linear scan *)

(** The scan keeps the first entry at the smallest distance: the entries
    before it are strictly farther, the entries after it are not nearer. *)
Lemma linearScan_fold (m : Z) (rest before after : list Z) (best : Z) :
  (∀ t, t ∈ before → Z.abs (best - m) < Z.abs (t - m)) →
  (∀ t, t ∈ after → Z.abs (best - m) ≤ Z.abs (t - m)) →
  ∃ before' after',
    before ++ best :: after ++ rest
      = before' ++ fold_left (linearStep m) rest best :: after'
    ∧ (∀ t, t ∈ before' → Z.abs (fold_left (linearStep m) rest best - m) < Z.abs (t - m))
    ∧ (∀ t, t ∈ after' → Z.abs (fold_left (linearStep m) rest best - m) ≤ Z.abs (t - m)).
Proof.
  revert before after best. induction rest as [|c rest IH]; intros before after best Hb Ha.
  - exists before, after. by rewrite app_nil_r.
  - cbn [fold_left]. unfold linearStep at 2 4 6.
    destruct (Z.ltb_spec (Z.abs (c - m)) (Z.abs (best - m))) as [Hlt|Hge].
    + destruct (IH (before ++ best :: after) [] c) as (b' & a' & Heq & Hb' & Ha').
      * intros t [Ht|[->|Ht]%elem_of_cons]%elem_of_app.
        -- specialize (Hb t Ht). lia.
        -- done.
        -- specialize (Ha t Ht). lia.
      * intros t Ht. by apply elem_of_nil in Ht.
      * exists b', a'. split; [|done]. rewrite <- Heq. cbn [app].
        by rewrite <- !app_assoc.
    + destruct (IH before (after ++ [c]) best) as (b' & a' & Heq & Hb' & Ha').
      * done.
      * intros t [Ht| ->%list_elem_of_singleton]%elem_of_app; [by apply Ha | done].
      * exists b', a'. split; [|done]. rewrite <- Heq. by rewrite <- !app_assoc.
Qed.

Lemma linearScan_first_nearest (ts : list Z) (m : Z) :
  ts ≠ [] →
  ∃ l before after,
    linearScan ts m = Some l ∧ ts = before ++ l :: after
    ∧ (∀ t, t ∈ before → Z.abs (l - m) < Z.abs (t - m))
    ∧ (∀ t, t ∈ after → Z.abs (l - m) ≤ Z.abs (t - m)).
Proof.
  intros Hne. destruct ts as [|t0 rest]; [done|]. cbn [linearScan].
  destruct (linearScan_fold m rest [] [] t0) as (b & a & Heq & Hb & Ha).
  - intros t Ht. by apply elem_of_nil in Ht.
  - intros t Ht. by apply elem_of_nil in Ht.
  - exists (fold_left (linearStep m) rest t0), b, a. by repeat split.
Qed.

(** *** The order of the comparisons *)

Lemma midpoints_step (ts : list Z) (m left_ right_ : Z) :
  midpoints ts m left_ right_
  = if left_ <=? right_
    then (left_ + right_) / 2
         :: (if at_index ts ((left_ + right_) / 2) <? m
             then midpoints ts m ((left_ + right_) / 2 + 1) right_
             else midpoints ts m left_ ((left_ + right_) / 2 - 1))
    else [].
Proof.
  funelim (midpoints ts m left_ right_).
  - clear -Hle. by rewrite Hle.
  - clear -e. by rewrite e.
Qed.

(** The loop ends with [closestIndex] taken through [closer] along the
    values of [mid]. *)
Lemma search_midpoints (ts : list Z) (m left_ right_ closestIndex : Z) :
  search ts m left_ right_ closestIndex
  = fold_left (closer ts m) (midpoints ts m left_ right_) closestIndex.
Proof.
  funelim (search ts m left_ right_ closestIndex).
  - clear Heqcall. rewrite midpoints_step.
    replace (left_ <=? right_) with true by (clear -Hle; done).
    cbn [fold_left]. unfold closer at 2.
    destruct (_ <? mouseDate); [apply H | apply H0].
  - rewrite midpoints_step. replace (left_ <=? right_) with false by (clear -e; done).
    done.
Qed.

Lemma closer_linearStep (ts : list Z) (m : Z) (mids : list Z) (c : Z) :
  at_index ts (fold_left (closer ts m) mids c)
  = fold_left (linearStep m) (at_index ts <$> mids) (at_index ts c).
Proof.
  revert c. induction mids as [|mid mids IH]; intros c; [done|].
  cbn [fold_left fmap list_fmap]. rewrite IH. f_equal.
  unfold closer, linearStep, distance. by destruct (_ <? _).
Qed.

(** The handler returns what the linear scan returns on the entries it
    compares, taken in the order of the comparisons. *)
Lemma selectedTimestamp_scan (ts : list Z) (m : Z) :
  selectedTimestamp ts m = linearScan (comparedTimestamps ts m) m.
Proof.
  unfold selectedTimestamp, comparedTimestamps.
  destruct (length ts =? 0)%nat; [done|].
  cbn [fmap list_fmap linearScan]. f_equal.
  unfold closestIndexOf. by rewrite search_midpoints, closer_linearStep.
Qed.

Lemma midpoints_in_range (ts : list Z) (m left_ right_ : Z) :
  Forall (λ mid, left_ ≤ mid ≤ right_) (midpoints ts m left_ right_).
Proof.
  funelim (midpoints ts m left_ right_); [|constructor].
  clear Heqcall. pose proof (proj1 (Z.leb_le _ _) Hle) as Hle'.
  assert (left_ ≤ (left_ + right_) `div` 2 ≤ right_)
    by (split; [apply Z.div_le_lower_bound | apply Z.div_le_upper_bound]; lia).
  constructor; [done|].
  destruct (_ <? mouseDate); (eapply Forall_impl; [eassumption|]); cbv beta; lia.
Qed.

Lemma comparedTimestamps_elem_of (ts : list Z) (m t : Z) :
  t ∈ comparedTimestamps ts m → t ∈ ts.
Proof.
  unfold comparedTimestamps. destruct (Nat.eqb_spec (length ts) 0) as [|Hn].
  - by intros ?%elem_of_nil.
  - intros (i & -> & Hi)%list_elem_of_fmap.
    eapply list_elem_of_lookup_2, at_index_lookup.
    apply elem_of_cons in Hi as [->|Hi]; [lia|].
    pose proof (midpoints_in_range ts m 0 (Z.of_nat (length ts) - 1)) as Hall.
    eapply Forall_forall in Hall; [|exact Hi]. cbv beta in Hall. lia.
Qed.

(** *** The claim on the lookup *)

(** C3, as the code has it.  On a non-empty array of increasing timestamps
    the binary search and the linear scan both return an entry at the
    smallest distance from the pointer.  They return the same entry unless
    two entries are at that distance, one on each side of the pointer; then
    the scan returns the lower one, and the search can return the higher
    one.  What the search returns is fixed by the order in which the loop
    compares entries, the entry at index 0 first, then the entry at each
    [mid]: it is the result of the linear scan over the entries in that
    order, that is the first of them at the smallest distance. *)
Theorem nearest_same_distance (ts : list Z) (m : Z) :
  ts ≠ [] → StronglySorted Z.lt ts →
  ∃ q l,
    selectedTimestamp ts m = Some q ∧ linearScan ts m = Some l
    ∧ q ∈ ts ∧ l ∈ ts
    ∧ (∀ t, t ∈ ts → Z.abs (q - m) ≤ Z.abs (t - m))
    ∧ Z.abs (q - m) = Z.abs (l - m)
    ∧ (q ≠ l → l < m < q ∧ q - m = m - l)
    ∧ linearScan (comparedTimestamps ts m) m = Some q
    ∧ (∀ t, t ∈ comparedTimestamps ts m → t ∈ ts)
    ∧ ∃ before after,
        comparedTimestamps ts m = before ++ q :: after
        ∧ (∀ t, t ∈ before → Z.abs (q - m) < Z.abs (t - m)).
Proof.
  intros Hne Hs.
  destruct (selectedTimestamp_nearest ts m Hne Hs) as (q & Hq & Hqin & Hqmin).
  destruct (linearScan_first_nearest ts m Hne) as (l & before & after & Hl & Hts & Hb & Ha).
  assert (Hlin : l ∈ ts)
    by (rewrite Hts; apply elem_of_app; right; apply elem_of_cons; by left).
  assert (Hlmin : ∀ t, t ∈ ts → Z.abs (l - m) ≤ Z.abs (t - m)).
  { intros t. rewrite Hts at 1.
    intros [Ht|[->|Ht]%elem_of_cons]%elem_of_app;
      [specialize (Hb t Ht); lia | done | by apply Ha]. }
  pose proof (Hqmin l Hlin). pose proof (Hlmin q Hqin).
  assert (Hscan : linearScan (comparedTimestamps ts m) m = Some q)
    by (by rewrite <- selectedTimestamp_scan).
  exists q, l. do 5 (split; [done|]). split; [lia|]. split; [|split; [done|split]].
  - intros Hql. assert (Hlq : l < q); [|lia].
    rewrite Hts in Hqin, Hs.
    apply elem_of_app in Hqin as [Hqb|[Heq|Hqa]%elem_of_cons].
    + specialize (Hb q Hqb). lia.
    + done.
    + apply StronglySorted_app_1_r, StronglySorted_inv in Hs as [_ Hall].
      by eapply Forall_forall in Hall.
  - apply comparedTimestamps_elem_of.
  - destruct (linearScan_first_nearest (comparedTimestamps ts m) m)
      as (q' & before' & after' & Hq' & Hsplit & Hb' & _).
    + intros Hnil. rewrite Hnil in Hscan. done.
    + assert (q' = q) as -> by congruence. by exists before', after'.
Qed.

Lemma nearest_same_distance_witness :
  tieTimestamps ≠ [] ∧ StronglySorted Z.lt tieTimestamps
  ∧ ∃ q l,
      selectedTimestamp tieTimestamps tiePointer = Some q
      ∧ linearScan tieTimestamps tiePointer = Some l
      ∧ Z.abs (q - tiePointer) = Z.abs (l - tiePointer)
      ∧ linearScan (comparedTimestamps tieTimestamps tiePointer) tiePointer = Some q.
Proof.
  assert (Hne : tieTimestamps ≠ []) by discriminate.
  assert (Hs : StronglySorted Z.lt tieTimestamps)
    by (unfold tieTimestamps; repeat constructor; lia).
  destruct (nearest_same_distance tieTimestamps tiePointer Hne Hs)
    as (q & l & Hq & Hl & _ & _ & _ & Hd & _ & Hc & _).
  exact (conj Hne (conj Hs (ex_intro _ q (ex_intro _ l
           (conj Hq (conj Hl (conj Hd Hc))))))).
Defined.

(** C3, as stated, fails: with entries at 10 and 20 and the pointer at 15,
    the search compares 20 before 10 and keeps it; the scan returns 10. *)
Lemma search_tie_higher :
  tieTimestamps ≠ [] ∧ StronglySorted Z.lt tieTimestamps
  ∧ selectedTimestamp tieTimestamps tiePointer = Some 20
  ∧ linearScan tieTimestamps tiePointer = Some 10
  ∧ selectedTimestamp tieTimestamps tiePointer ≠ linearScan tieTimestamps tiePointer.
Proof.
  split; [discriminate|]. split; [unfold tieTimestamps; repeat constructor; lia|].
  assert (Hq : selectedTimestamp tieTimestamps tiePointer = Some 20) by (by vm_compute).
  assert (Hl : linearScan tieTimestamps tiePointer = Some 10) by (by vm_compute).
  rewrite Hq, Hl. by repeat split.
Qed.

End NearestPointFacts.

(** ** The brush *)

Module BrushFacts.

Import Brush.

Open Scope Z_scope.

Lemma timeClip_mono (a b : Q) : (a <= b)%Q → timeClip a ≤ timeClip b.
Proof.
  unfold Qle, timeClip. destruct a as [na da], b as [nb db]. cbn [Qnum Qden].
  intros Hle.
  rewrite <- (Z.quot_mul_cancel_r na (Z.pos da) (Z.pos db)) by lia.
  rewrite <- (Z.quot_mul_cancel_r nb (Z.pos db) (Z.pos da)) by lia.
  rewrite (Z.mul_comm (Z.pos db) (Z.pos da)).
  apply Z.quot_le_mono; lia.
Qed.

(** The inverse of an increasing linear scale never decreases. *)
Lemma scaleInvert_mono (d0 d1 : Z) (width : Q) (a b : Q) :
  d0 ≤ d1 → (0 < width)%Q → (a <= b)%Q →
  scaleInvert d0 d1 width a ≤ scaleInvert d0 d1 width b.
Proof.
  intros Hd Hw Hab. unfold scaleInvert. apply timeClip_mono.
  apply Qplus_le_r. apply Qmult_le_compat_r.
  - unfold Qdiv. apply Qmult_le_compat_r; [done|].
    apply Qinv_le_0_compat. by apply Qlt_le_weak.
  - change 0%Q with (inject_Z 0). rewrite <- Zle_Qle. lia.
Qed.

Lemma gestureEnd_selection (x0 x1 : Q) :
  selection (gestureEnd x0 x1) = if Qeq_bool x0 x1 then None else Some (x0, x1).
Proof. reflexivity. Qed.

(** C5, as the code has it.  The handler leaves the published range as it
    is for an event without a source event or without a selection, and so
    for a user gesture that ends on a selection of zero width, which the
    brush delivers without a selection.  For a gesture that ends on a
    selection from [x0] to [x1 > x0] it publishes the two ends through the
    inverse of the overview's scale; with an inverse that never decreases,
    the published range has [start <= end]. *)
Theorem brushEnd_published (invert : Q → Z) (x0 x1 : Q)
    (dateRange : option DateRange) :
  (∀ a b, (a <= b)%Q → invert a ≤ invert b) → (x0 <= x1)%Q →
  (∀ event, sourceEvent event = false ∨ selection event = None →
            brushEnd invert event dateRange = dateRange)
  ∧ ((x0 == x1)%Q → brushEnd invert (gestureEnd x0 x1) dateRange = dateRange)
  ∧ ((x0 < x1)%Q →
     brushEnd invert (gestureEnd x0 x1) dateRange
     = Some (mkRange (invert x0) (invert x1)))
  ∧ (∀ r, brushEnd invert (gestureEnd x0 x1) dateRange = Some r →
          dateRange ≠ Some r →
          (x0 < x1)%Q ∧ r = mkRange (invert x0) (invert x1) ∧ start r ≤ end_ r).
Proof.
  intros Hmono Hle.
  assert (Hzero : (x0 == x1)%Q → brushEnd invert (gestureEnd x0 x1) dateRange = dateRange).
  { intros Heq. unfold brushEnd. rewrite gestureEnd_selection.
    apply Qeq_bool_iff in Heq. rewrite Heq. by destruct (negb _). }
  assert (Hwide : (x0 < x1)%Q →
                  brushEnd invert (gestureEnd x0 x1) dateRange
                  = Some (mkRange (invert x0) (invert x1))).
  { intros Hlt. unfold brushEnd. rewrite gestureEnd_selection. cbn [gestureEnd sourceEvent negb].
    destruct (Qeq_bool x0 x1) eqn:E; [|done].
    apply Qeq_bool_iff in E. rewrite E in Hlt. by apply Qlt_irrefl in Hlt. }
  split; [|split; [done|split; [done|]]].
  - intros event [H|H]; unfold brushEnd; rewrite H; [done | by destruct (negb _)].
  - intros r Hr Hchanged.
    destruct (Qlt_le_dec x0 x1) as [Hlt|Hge].
    + rewrite (Hwide Hlt) in Hr. injection Hr as <-.
      split; [done|]. split; [done|]. cbn. by apply Hmono.
    + rewrite Hzero in Hr by (by apply Qle_antisym). done.
Qed.

Lemma brushEnd_published_witness :
  (∀ a b, (a <= b)%Q → dayInvert a ≤ dayInvert b) ∧ (100 <= 200)%Q
  ∧ brushEnd dayInvert (gestureEnd 100 200) (Some fullDay)
    = Some (mkRange (dayInvert 100) (dayInvert 200))
  ∧ brushEnd dayInvert (gestureEnd 432 432) (Some fullDay) = Some fullDay.
Proof.
  assert (Hmono : ∀ a b, (a <= b)%Q → dayInvert a ≤ dayInvert b).
  { intros a b Hab. apply scaleInvert_mono; [lia | reflexivity | exact Hab]. }
  assert (Hle : (100 <= 200)%Q) by (unfold Qle; cbn; lia).
  assert (Hle' : (432 <= 432)%Q) by apply Qle_refl.
  destruct (brushEnd_published dayInvert 100 200 (Some fullDay) Hmono Hle)
    as (_ & _ & Hwide & _).
  destruct (brushEnd_published dayInvert 432 432 (Some fullDay) Hmono Hle')
    as (_ & Hzero & _).
  split; [exact Hmono|]. split; [exact Hle|]. split.
  - apply Hwide. reflexivity.
  - apply Hzero. reflexivity.
Defined.

(** C5, as stated, fails.  On an overview whose timestamps are all the same
    instant, a drag of 100 pixels publishes a range with [start = end]. *)
Lemma brushEnd_collapsed :
  ∃ r, brushEnd (scaleInvert 1704067200000 1704067200000 864)
         (gestureEnd 100 200) (Some fullDay) = Some r
       ∧ Some r ≠ Some fullDay
       ∧ ¬ start r < end_ r.
Proof.
  exists (mkRange 1704067200000 1704067200000).
  split; [by vm_compute|]. split; [discriminate | cbn; lia].
Qed.

End BrushFacts.

(** ** The render pass *)

Module RendererFacts.

Import Decimator Renderer DecimatorFacts.

Open Scope Z_scope.

(** *** Lengths through the pipeline *)

Lemma insertSorted_length {A : Type} (compareFn : A → A → Z) (x : A) (l : list A) :
  length (insertSorted compareFn x l) = S (length l).
Proof.
  induction l as [|y l IH]; [done|]. cbn. destruct (_ <=? _); cbn; by rewrite ?IH.
Qed.

Lemma arraySort_length {A : Type} (compareFn : A → A → Z) (l : list A) :
  length (arraySort compareFn l) = length l.
Proof.
  unfold arraySort.
  assert (H : ∀ acc, length (fold_left (λ sorted x, insertSorted compareFn x sorted) l acc)
                     = (length l + length acc)%nat).
  { induction l as [|x l IH]; intros acc; [done|].
    cbn [fold_left length]. rewrite IH, insertSorted_length. lia. }
  rewrite H. cbn. lia.
Qed.

Lemma filter_length_mono {A : Type} (p q : A → bool) (l : list A) :
  (∀ x, p x = true → q x = true) →
  (length (List.filter p l) ≤ length (List.filter q l))%nat.
Proof.
  intros Hpq. induction l as [|x l IH]; [done|]. cbn.
  destruct (p x) eqn:Hp.
  - rewrite (Hpq x Hp). cbn. lia.
  - destruct (q x); cbn; lia.
Qed.

Lemma inRange_subset (r1 r2 : DateRange) (point : FormattedDataPoint) :
  (∀ t, start r1 ≤ t ≤ end_ r1 → start r2 ≤ t ≤ end_ r2) →
  inRange r1 point = true → inRange r2 point = true.
Proof.
  intros Hsub. unfold inRange. destruct (date point) as [t|]; [|done].
  rewrite !andb_true_iff, !Z.leb_le. intros H. apply Hsub. lia.
Qed.

Lemma maxPointsPerLine_ge (width : Z) : (100 ≤ maxPointsPerLine width)%nat.
Proof. unfold maxPointsPerLine. lia. Qed.

(** For a budget of two points or more, decimation keeps
    [min(length, maxPoints)] points. *)
Lemma decimateData_length_min (data : list FormattedDataPoint) (maxPoints : nat) :
  (2 ≤ maxPoints)%nat →
  length (decimateData data maxPoints) = Nat.min (length data) maxPoints.
Proof.
  intros Hm. rewrite decimateData_length.
  destruct (Nat.leb_spec (length data) maxPoints); lia.
Qed.

Lemma formatSeries_length_mono (parseTime : string → option Z) (r1 r2 : DateRange)
    (d : Raw.SentimentData) :
  (∀ t, start r1 ≤ t ≤ end_ r1 → start r2 ≤ t ≤ end_ r2) →
  (length (values (formatSeries parseTime r1 d))
   ≤ length (values (formatSeries parseTime r2 d)))%nat.
Proof.
  intros Hsub. cbn. rewrite !arraySort_length. unfold pointsInRange.
  apply filter_length_mono. intros x. by apply inRange_subset.
Qed.

Lemma noPoints_spec (formattedData : list FormattedSeries) :
  noPoints formattedData = true ↔ Forall (λ d, values d = []) formattedData.
Proof.
  unfold noPoints. rewrite orb_true_iff, forallb_forall, Forall_forall. split.
  - intros [H|H] d Hd.
    + apply Nat.eqb_eq in H. destruct formattedData; [by apply elem_of_nil in Hd | done].
    + apply list_elem_of_In in Hd. specialize (H d Hd). apply Nat.eqb_eq in H.
      by destruct (values d).
  - intros H. right. intros d Hd%list_elem_of_In. by rewrite (H d Hd).
Qed.

Lemma sum_lengths_noPoints (formattedData : list FormattedSeries) :
  noPoints formattedData = true →
  sum_list (map (λ d, length (values d)) formattedData) = 0%nat.
Proof.
  intros H%noPoints_spec. induction H as [|d l Hd _ IH]; [done|].
  cbn. by rewrite Hd, IH.
Qed.

(** The number of points drawn, whether the pass ends on the placeholder or
    on the chart. *)
Lemma renderedPoints_renderChart (parseTime : string → option Z)
    (sentimentData : list Raw.SentimentData) (visibleLines : gmap string bool)
    (dateRange : DateRange) (clientWidth : Z) :
  renderedPoints (renderChart parseTime sentimentData visibleLines (Some dateRange) clientWidth)
  = if clientWidth - 50 - 80 <=? 0 then 0%nat
    else sum_list
           (map (λ d, length (decimateData (values (formatSeries parseTime dateRange d))
                                (maxPointsPerLine (clientWidth - 50 - 80))))
                (List.filter (isVisible visibleLines) sentimentData)).
Proof.
  unfold renderChart. cbv zeta. destruct (_ <=? 0); [done|].
  set (formattedData := map (decimateSeries _) (map (formatSeries _ _) _)).
  assert (sum_list (map (λ d, length (values d)) formattedData)
          = sum_list
              (map (λ d, length (decimateData (values (formatSeries parseTime dateRange d))
                                   (maxPointsPerLine (clientWidth - 50 - 80))))
                   (List.filter (isVisible visibleLines) sentimentData))) as <-
    by (subst formattedData; by rewrite !map_map).
  destruct (noPoints formattedData) eqn:E; [|done].
  cbn. by rewrite sum_lengths_noPoints.
Qed.

Lemma sum_list_map_mono {A : Type} (f g : A → nat) (l : list A) :
  (∀ x, (f x ≤ g x)%nat) → (sum_list (map f l) ≤ sum_list (map g l))%nat.
Proof.
  intros Hfg. induction l as [|x l IH]; [done|]. cbn. specialize (Hfg x). lia.
Qed.

(** *** The claims on the render pass *)

(** C8.  For two ranges with [R1] inside [R2], and the same series data,
    visibility set and width, the pass for [R1] draws at most as many
    points, after the inclusive range filter and the decimation, as the
    pass for [R2]. *)
Theorem renderedPoints_monotone (parseTime : string → option Z)
    (sentimentData : list Raw.SentimentData) (visibleLines : gmap string bool)
    (r1 r2 : DateRange) (clientWidth : Z) :
  (∀ t, start r1 ≤ t ≤ end_ r1 → start r2 ≤ t ≤ end_ r2) →
  (renderedPoints (renderChart parseTime sentimentData visibleLines (Some r1) clientWidth)
   ≤ renderedPoints (renderChart parseTime sentimentData visibleLines (Some r2) clientWidth))%nat.
Proof.
  intros Hsub. rewrite !renderedPoints_renderChart.
  destruct (_ <=? 0); [done|].
  apply sum_list_map_mono. intros d.
  pose proof (maxPointsPerLine_ge (clientWidth - 50 - 80)).
  rewrite !decimateData_length_min by lia.
  pose proof (formatSeries_length_mono parseTime r1 r2 d Hsub). lia.
Qed.

Lemma renderedPoints_monotone_witness :
  (∀ t, start sampleNarrowRange ≤ t ≤ end_ sampleNarrowRange →
        start sampleRange ≤ t ≤ end_ sampleRange)
  ∧ (renderedPoints (renderChart sampleParseTime sampleData allVisible
                       (Some sampleNarrowRange) 1000)
     ≤ renderedPoints (renderChart sampleParseTime sampleData allVisible
                         (Some sampleRange) 1000))%nat.
Proof.
  assert (Hsub : ∀ t, start sampleNarrowRange ≤ t ≤ end_ sampleNarrowRange →
                      start sampleRange ≤ t ≤ end_ sampleRange)
    by (cbn; lia).
  exact (conj Hsub (renderedPoints_monotone sampleParseTime sampleData allVisible
                      sampleNarrowRange sampleRange 1000 Hsub)).
Defined.

Lemma arraySort_nil {A : Type} (compareFn : A → A → Z) : arraySort compareFn [] = [].
Proof. reflexivity. Qed.

Lemma renderChart_placeholder (parseTime : string → option Z)
    (sentimentData : list Raw.SentimentData) (visibleLines : gmap string bool)
    (dateRange : option DateRange) (clientWidth : Z) :
  renderChart parseTime sentimentData visibleLines dateRange clientWidth
  = NoDataPlaceholder
  ↔ ∃ r, dateRange = Some r ∧ 130 < clientWidth
         ∧ ∀ d, d ∈ sentimentData → isVisible visibleLines d = true →
                pointsInRange parseTime r d = [].
Proof.
  unfold renderChart. destruct dateRange as [r|]; [|split; [done | by intros (? & ? & _)]].
  cbv zeta. destruct (Z.leb_spec (clientWidth - 50 - 80) 0) as [Hw|Hw].
  { split; [done|]. intros (? & _ & ? & _). lia. }
  pose proof (maxPointsPerLine_ge (clientWidth - 50 - 80)) as Hmax.
  set (formattedData := map _ (map _ _)).
  assert (Hspec : noPoints formattedData = true
                  ↔ ∀ d, d ∈ sentimentData → isVisible visibleLines d = true →
                         pointsInRange parseTime r d = []).
  { rewrite noPoints_spec, Forall_forall. subst formattedData. split.
    - intros H d Hd Hvis.
      specialize (H (decimateSeries (clientWidth - 50 - 80) (formatSeries parseTime r d))).
      apply (f_equal length) in H.
      + cbn in H. rewrite decimateData_length_min, arraySort_length in H by lia.
        destruct (pointsInRange parseTime r d); [done | cbn [length] in H; lia].
      + apply list_elem_of_In, in_map, in_map, filter_In.
        split; [by apply list_elem_of_In | done].
    - intros H s Hs.
      apply list_elem_of_fmap in Hs as (s' & -> & Hs').
      apply list_elem_of_fmap in Hs' as (d & -> & Hd).
      apply list_elem_of_In, filter_In in Hd as [Hd Hvis].
      cbn. rewrite (H d) by (by apply list_elem_of_In || done).
      rewrite arraySort_nil. by apply decimateData_short; cbn; lia. }
  destruct (noPoints formattedData) eqn:E.
  - split; [|done]. intros _. exists r. split; [done|]. split; [lia|]. by apply Hspec.
  - split; [done|]. intros (r' & [= <-] & _ & H). apply Hspec in H. congruence.
Qed.

(** C9, as the code has it.  A pass of the renderer ends on the placeholder
    exactly when a date range is set, the container is wider than the
    margins of 130 pixels, and the visibility filter and the range filter
    leave no point in any series; the effect that runs the pass asks in
    addition that there is a series.  Under these conditions, hiding every
    series gives the placeholder.  Without a date range, or in a container
    of 130 pixels or less, the pass draws nothing, the placeholder
    included. *)
Theorem empty_state_placeholder (parseTime : string → option Z)
    (sentimentData : list Raw.SentimentData) (visibleLines : gmap string bool)
    (dateRange : option DateRange) (clientWidth : Z) :
  let noneLeft r :=
    ∀ d, d ∈ sentimentData → isVisible visibleLines d = true →
         pointsInRange parseTime r d = [] in
  (renderChart parseTime sentimentData visibleLines dateRange clientWidth
   = NoDataPlaceholder
   ↔ ∃ r, dateRange = Some r ∧ 130 < clientWidth ∧ noneLeft r)
  ∧ (renderEffect parseTime sentimentData visibleLines dateRange clientWidth
     = NoDataPlaceholder
     ↔ sentimentData ≠ [] ∧ ∃ r, dateRange = Some r ∧ 130 < clientWidth ∧ noneLeft r)
  ∧ ((∀ d, d ∈ sentimentData → isVisible visibleLines d = false) →
     ∀ r, dateRange = Some r → 130 < clientWidth →
          renderChart parseTime sentimentData visibleLines dateRange clientWidth
          = NoDataPlaceholder)
  ∧ (dateRange = None ∨ clientWidth ≤ 130 →
     renderChart parseTime sentimentData visibleLines dateRange clientWidth
     = NothingDrawn
     ∧ renderEffect parseTime sentimentData visibleLines dateRange clientWidth
       = NothingDrawn).
Proof.
  cbv zeta. split; [apply renderChart_placeholder|]. split; [|split].
  - unfold renderEffect. destruct sentimentData as [|d0 rest] eqn:Hdata.
    + cbn. split; [done | by intros [? _]].
    + cbn [length Nat.eqb]. rewrite <- Hdata. destruct dateRange as [r|].
      * rewrite renderChart_placeholder. split; [intros H; split; [by subst | done]|].
        by intros [_ H].
      * split; [done | by intros (_ & ? & ? & _)].
  - intros Hhidden r -> Hw. apply renderChart_placeholder.
    exists r. split; [done|]. split; [done|]. intros d Hd Hvis.
    rewrite (Hhidden d Hd) in Hvis. done.
  - intros Hno.
    assert (renderChart parseTime sentimentData visibleLines dateRange clientWidth
            = NothingDrawn) as Hpass.
    { unfold renderChart. destruct dateRange as [r|]; [|done]. cbv zeta.
      destruct (Z.leb_spec (clientWidth - 50 - 80) 0) as [|Hw]; [done|].
      destruct Hno; [done | lia]. }
    split; [done|]. unfold renderEffect.
    destruct (_ =? _)%nat; [done|]. by destruct dateRange.
Qed.

Lemma empty_state_placeholder_witness :
  (∀ d, d ∈ sampleData → isVisible allHidden d = false)
  ∧ renderChart sampleParseTime sampleData allHidden (Some sampleRange) 1000
    = NoDataPlaceholder.
Proof.
  assert (Hhidden : ∀ d, d ∈ sampleData → isVisible allHidden d = false).
  { intros d Hd. unfold sampleData in Hd. for_each_in_list Hd. }
  destruct (empty_state_placeholder sampleParseTime sampleData allHidden
              (Some sampleRange) 1000) as (_ & _ & H & _).
  split; [exact Hhidden|].
  apply (H Hhidden sampleRange); [reflexivity | lia].
Defined.

(** C9, as stated, fails: in a container that has no width yet, and when no
    date range is set, the pass returns before it draws anything, the
    placeholder included. *)
Lemma hidden_series_nothing_drawn :
  sampleData ≠ []
  ∧ (∀ d, d ∈ sampleData → isVisible allHidden d = false)
  ∧ renderChart sampleParseTime sampleData allHidden (Some sampleRange) 0
    ≠ NoDataPlaceholder
  ∧ renderChart sampleParseTime sampleData allHidden None 1000
    ≠ NoDataPlaceholder.
Proof.
  split; [discriminate|]. split; [|split].
  - intros d Hd. unfold sampleData in Hd. for_each_in_list Hd.
  - by vm_compute.
  - by vm_compute.
Qed.

(** *** The tooltip *)

Lemma seriesValueAt_empty (ts : Z) (seriesName : string) :
  seriesValueAt ∅ ts seriesName = None.
Proof. unfold seriesValueAt. by rewrite lookup_empty. Qed.

Lemma seriesValueAt_addPoint (seriesName : string) (dateValues : gmap Z (gmap string Q))
    (point : FormattedDataPoint) (ts : Z) (nm : string) :
  seriesValueAt (addPoint seriesName dateValues point) ts nm
  = if decide (date point = Some ts ∧ seriesName = nm) then Some (value point)
    else seriesValueAt dateValues ts nm.
Proof.
  unfold addPoint, seriesValueAt. destruct (date point) as [t|].
  - destruct (decide (t = ts)) as [->|Hne].
    + rewrite lookup_insert_eq. cbn.
      destruct (decide (seriesName = nm)) as [->|Hnm].
      * rewrite lookup_insert_eq. by rewrite decide_True.
      * rewrite lookup_insert_ne by done.
        rewrite decide_False by (intros [_ ?]; done).
        destruct (dateValues !! ts); [done | apply lookup_empty].
    + rewrite lookup_insert_ne by done. rewrite decide_False; [done|].
      intros [[= ?] _]. done.
  - rewrite decide_False; [done|]. by intros [? _].
Qed.

Lemma seriesValueAt_points (seriesName : string) (points : list FormattedDataPoint)
    (dateValues : gmap Z (gmap string Q)) (ts : Z) (nm : string) (v : Q) :
  seriesValueAt (fold_left (addPoint seriesName) points dateValues) ts nm = Some v →
  (seriesName = nm ∧ ∃ p, p ∈ points ∧ date p = Some ts ∧ value p = v)
  ∨ seriesValueAt dateValues ts nm = Some v.
Proof.
  revert dateValues. induction points as [|p points IH]; intros dateValues H; [by right|].
  cbn [fold_left] in H. apply IH in H as [(Hnm & q & Hq & Hd & Hv)|H].
  - left. split; [done|]. exists q. split; [by apply elem_of_cons; right | done].
  - rewrite seriesValueAt_addPoint in H.
    destruct (decide _) as [[Hd Hnm]|_]; [|by right].
    left. split; [done|]. exists p. split; [by apply elem_of_cons; left|].
    split; [done | congruence].
Qed.

(** A value in the lookup table comes from a point of a drawn series with
    that name and that timestamp. *)
Lemma seriesValueAt_series (formattedData : list FormattedSeries)
    (dateValues : gmap Z (gmap string Q)) (ts : Z) (nm : string) (v : Q) :
  seriesValueAt
    (fold_left (λ dateValues series,
                  fold_left (addPoint (name series)) (values series) dateValues)
               formattedData dateValues) ts nm = Some v →
  (∃ s p, s ∈ formattedData ∧ name s = nm ∧ p ∈ values s
          ∧ date p = Some ts ∧ value p = v)
  ∨ seriesValueAt dateValues ts nm = Some v.
Proof.
  revert dateValues. induction formattedData as [|s fd IH]; intros dateValues H; [by right|].
  cbn [fold_left] in H. apply IH in H as [(s' & p & Hs' & Hrest)|H].
  - left. exists s', p. split; [by apply elem_of_cons; right | done].
  - apply seriesValueAt_points in H as [(Hnm & p & Hp & Hd & Hv)|H]; [|by right].
    left. exists s, p. split; [by apply elem_of_cons; left | done].
Qed.

Lemma NoDup_names_inj (formattedData : list FormattedSeries) (s s' : FormattedSeries) :
  NoDup (map name formattedData) → s ∈ formattedData → s' ∈ formattedData →
  name s = name s' → s = s'.
Proof.
  induction formattedData as [|x fd IH]; intros Hnd Hs Hs' Hn;
    [by apply elem_of_nil in Hs|].
  cbn in Hnd. apply NoDup_cons in Hnd as [Hx Hnd].
  apply elem_of_cons in Hs as [->|Hs]; apply elem_of_cons in Hs' as [->|Hs'].
  - done.
  - exfalso. apply Hx. rewrite Hn. apply list_elem_of_fmap. by exists s'.
  - exfalso. apply Hx. rewrite <- Hn. apply list_elem_of_fmap. by exists s.
  - by apply IH.
Qed.

(** The overlay chart: the tooltip has one row per drawn series, in the
    order of the series, and the row of a series without a point at the
    timestamp under the crosshair reads [N/A]. *)
Lemma tooltipRows_not_available (formattedData : list FormattedSeries) (ts : Z) :
  NoDup (map name formattedData) →
  map fst (tooltipRows formattedData (buildDateValues formattedData) ts)
  = map name formattedData
  ∧ ∀ s, s ∈ formattedData → (∀ p, p ∈ values s → date p ≠ Some ts) →
         (name s, NotAvailable)
         ∈ tooltipRows formattedData (buildDateValues formattedData) ts.
Proof.
  intros Hnd. split.
  - unfold tooltipRows. by rewrite map_map.
  - intros s Hs Hmiss. unfold tooltipRows. apply list_elem_of_fmap. exists s.
    split; [|done]. f_equal.
    destruct (seriesValueAt _ ts (name s)) as [v|] eqn:E; [|done]. exfalso.
    apply seriesValueAt_series in E as [(s' & p & Hs' & Hn & Hp & Hd & _)|E].
    + assert (s' = s) as -> by (by apply (NoDup_names_inj formattedData)).
      by apply (Hmiss p).
    + by rewrite seriesValueAt_empty in E.
Qed.

(** The stacked chart shows the number 0 in that row. *)
Lemma tooltipRowsV2_zero (decimatedData : list FormattedSeries) (ts : Z) :
  NoDup (map name decimatedData) →
  ∀ s, s ∈ decimatedData → (∀ p, p ∈ values s → date p ≠ Some ts) →
       (name s, Shown 0)
       ∈ tooltipRowsV2 decimatedData (buildDateValues decimatedData) ts.
Proof.
  intros Hnd s Hs Hmiss. unfold tooltipRowsV2. apply list_elem_of_fmap. exists s.
  split; [|done]. do 2 f_equal.
  destruct (seriesValueAt _ ts (name s)) as [v|] eqn:E; [|done]. exfalso.
  apply seriesValueAt_series in E as [(s' & p & Hs' & Hn & Hp & Hd & _)|E].
  - assert (s' = s) as -> by (by apply (NoDup_names_inj decimatedData)).
    by apply (Hmiss p).
  - by rewrite seriesValueAt_empty in E.
Qed.

(** *** The timestamps under the crosshair *)

Lemma sorted_le_NoDup_lt (l : list Z) :
  StronglySorted Z.le l → NoDup l → StronglySorted Z.lt l.
Proof.
  induction 1 as [|x l Hs IH Hx]; intros Hnd; [constructor|].
  apply NoDup_cons in Hnd as [Hnotin Hnd]. constructor; [by apply IH|].
  apply Forall_forall. intros y Hy.
  pose proof (proj1 (Forall_forall _ _) Hx y Hy).
  assert (x ≠ y) by (intros ->; done). lia.
Qed.

(** The keys of the lookup table, sorted by [(a, b) => a - b], are an
    increasing array of distinct timestamps: what the search expects. *)
Lemma sortedTimestamps_sorted (dateValues : gmap Z (gmap string Q)) :
  StronglySorted Z.lt (sortedTimestamps dateValues).
Proof.
  unfold sortedTimestamps. apply sorted_le_NoDup_lt.
  - apply (StronglySorted_merge_sort Z.le).
  - rewrite merge_sort_Permutation. apply NoDup_fst_map_to_list.
Qed.

(** The crosshair of the overlay chart stops on a timestamp of the table
    that is as near to the pointer as any. *)
Lemma mousemove_nearest (formattedData : list FormattedSeries) (mouseDate ts : Z)
    (rows : list (string * TooltipValue)) :
  mousemove formattedData mouseDate = Some (ts, rows) →
  ts ∈ sortedTimestamps (buildDateValues formattedData)
  ∧ (∀ t, t ∈ sortedTimestamps (buildDateValues formattedData) →
          Z.abs (ts - mouseDate) ≤ Z.abs (t - mouseDate))
  ∧ rows = tooltipRows formattedData (buildDateValues formattedData) ts.
Proof.
  unfold mousemove. cbv zeta.
  set (sorted := sortedTimestamps (buildDateValues formattedData)).
  destruct (NearestPoint.selectedTimestamp sorted mouseDate) as [q|] eqn:E; [|done].
  intros [= <- <-].
  assert (Hne : sorted ≠ []).
  { intros Hnil. rewrite Hnil in E. discriminate E. }
  destruct (NearestPointFacts.selectedTimestamp_nearest sorted mouseDate Hne
              (sortedTimestamps_sorted _)) as (q' & Hq' & Hin & Hmin).
  rewrite E in Hq'. injection Hq' as <-. done.
Qed.

(** C4 on the code.  For the two sample series, drawn by the stacked chart
    over the three days, the crosshair on the first day finds no point of
    the series [+1]; the tooltip of the stacked chart shows the number 0 for
    it, where the tooltip of the overlay chart shows [N/A]. *)
Theorem tooltipV2_missing_shows_zero :
  renderChartV2 sampleParseTime sampleData (Some sampleRange) 1000 = Chart sampleDrawn
  ∧ (∀ p, p ∈ [ mkPoint (Some 1704153600000) 7 ] → date p ≠ Some 1704067200000)
  ∧ mousemoveV2 sampleDrawn 1704067200000
    = Some (1704067200000, [ ("-1"%string, Shown 4); ("+1"%string, Shown 0) ])
  ∧ mousemove sampleDrawn 1704067200000
    = Some (1704067200000, [ ("-1"%string, Shown 4); ("+1"%string, NotAvailable) ]).
Proof.
  split; [by vm_compute|]. split.
  - intros p ->%list_elem_of_singleton. cbn. discriminate.
  - split; by vm_compute.
Qed.

End RendererFacts.

(** ** More on the decimator and the render pass *)

Module PipelineFacts.

Import Decimator Renderer Chart DecimatorFacts RendererFacts.

Open Scope Z_scope.

(** *** Decimation again, and order *)

(** X1.  Decimating a decimated series changes nothing, whatever the budget. *)
Theorem decimateData_idempotent (data : list FormattedDataPoint) (maxPoints : nat) :
  decimateData (decimateData data maxPoints) maxPoints = decimateData data maxPoints.
Proof.
  destruct (decide (length data ≤ maxPoints)%nat) as [Hle|Hgt].
  - rewrite (decimateData_short data maxPoints Hle). by apply decimateData_short.
  - destruct (decide (2 ≤ maxPoints)%nat) as [Hm|Hm].
    + apply decimateData_short. rewrite decimateData_length.
      destruct (Nat.leb_spec (length data) maxPoints); lia.
    + destruct data as [|d0 rest]; [cbn in Hgt; lia|].
      rewrite (decimateData_unfold d0 rest maxPoints) by lia.
      replace (maxPoints - 2)%nat with 0%nat by lia. cbn [seq map app].
      rewrite (decimateData_unfold d0 [_] maxPoints) by (cbn; lia).
      by replace (maxPoints - 2)%nat with 0%nat by lia.
Qed.

Lemma sorted_nth_le {A : Type} (R : relation A) `{!Reflexive R} (l : list A) (d : A)
    (i j : nat) :
  StronglySorted R l → (i ≤ j)%nat → (j < length l)%nat → R (nth i l d) (nth j l d).
Proof.
  intros Hs. revert i j. induction Hs as [|x l Hs IH Hx]; intros i j Hij Hj.
  - cbn in Hj. lia.
  - destruct j as [|j].
    + assert (i = 0)%nat as -> by lia. done.
    + destruct i as [|i].
      * cbn. eapply Forall_forall in Hx; [exact Hx|].
        apply list_elem_of_In, nth_In. cbn in Hj. lia.
      * cbn. apply IH; [lia | cbn in Hj; lia].
Qed.

Lemma decimateData_sorted (R : relation FormattedDataPoint) `{!Reflexive R}
    (data : list FormattedDataPoint) (maxPoints : nat) :
  StronglySorted R data → StronglySorted R (decimateData data maxPoints).
Proof.
  intros Hs. set (d := mkPoint None 0).
  destruct (decimateData_indices data maxPoints d) as (-> & Hin & Hsorted).
  induction Hsorted as [|k ks Hks IH Hk]; cbn [map]; [constructor|].
  apply Forall_cons in Hin as [Hkin Hin]. constructor; [by apply IH|].
  apply Forall_forall. intros p Hp.
  apply list_elem_of_fmap in Hp as (k' & -> & Hk').
  apply (sorted_nth_le R data d k k' Hs).
  - by eapply Forall_forall in Hk.
  - by eapply Forall_forall in Hin.
Qed.

Lemma chronLe_refl : Reflexive chronLe.
Proof.
  intros p. unfold chronLe, compareDates. destruct (date p); lia.
Qed.

Lemma decimateData_chronological_helper (data : list FormattedDataPoint)
    (maxPoints : nat) :
  StronglySorted chronLe data → StronglySorted chronLe (decimateData data maxPoints).
Proof. apply decimateData_sorted, chronLe_refl. Qed.

(** X2.  A series in chronological order stays in chronological order. *)
Theorem decimateData_chronological (data : list FormattedDataPoint) (maxPoints : nat) :
  StronglySorted chronLe data → StronglySorted chronLe (decimateData data maxPoints).
Proof. apply decimateData_chronological_helper. Qed.

Lemma decimateData_chronological_witness :
  StronglySorted chronLe (scenario 0 1 2 3 4)
  ∧ StronglySorted chronLe (decimateData (scenario 0 1 2 3 4) 3).
Proof.
  assert (Hs : StronglySorted chronLe (scenario 0 1 2 3 4))
    by (unfold scenario; repeat constructor; unfold chronLe; cbn; lia).
  exact (conj Hs (decimateData_chronological (scenario 0 1 2 3 4) 3 Hs)).
Defined.

(** *** The sort *)

Lemma insertSorted_Permutation {A : Type} (compareFn : A → A → Z) (x : A) (l : list A) :
  insertSorted compareFn x l ≡ₚ x :: l.
Proof.
  induction l as [|y l IH]; [done|]. cbn. destruct (_ <=? _); [|done].
  rewrite IH. apply Permutation_swap.
Qed.

Lemma arraySort_Permutation {A : Type} (compareFn : A → A → Z) (l : list A) :
  arraySort compareFn l ≡ₚ l.
Proof.
  unfold arraySort.
  assert (H : ∀ acc, fold_left (λ sorted x, insertSorted compareFn x sorted) l acc
                     ≡ₚ acc ++ l).
  { induction l as [|x l IH]; intros acc; [by rewrite app_nil_r|].
    cbn [fold_left]. rewrite IH, insertSorted_Permutation.
    by rewrite (Permutation_middle acc l x). }
  by rewrite H.
Qed.

Lemma filter_none {A : Type} (f : A → bool) (l : list A) :
  Forall (λ z, f z = false) l → List.filter f l = [].
Proof.
  induction 1 as [|z l Hz _ IH]; [done|]. cbn. by rewrite Hz.
Qed.

(** The sort on elements that the comparator orders by a numeric key. *)
Section SortByKey.

Context {A : Type} (compareFn : A → A → Z) (key : A → Z) (P : A → Prop).
Hypothesis compare_key : ∀ a b, P a → P b → compareFn a b = key a - key b.

Local Abbreviation keyLe := (λ a b : A, key a ≤ key b).
Local Abbreviation keyIs := (λ (k : Z) (a : A), key a =? k).

Lemma insertSorted_sorted (x : A) (l : list A) :
  P x → Forall P l → StronglySorted keyLe l →
  StronglySorted keyLe (insertSorted compareFn x l).
Proof.
  intros Hx Hl Hs. induction Hs as [|y l Hs IH Hy]; [repeat constructor|].
  apply Forall_cons in Hl as [HPy Hl]. cbn [insertSorted].
  rewrite (compare_key y x HPy Hx). destruct (Z.leb_spec (key y - key x) 0).
  - constructor; [by apply IH|].
    apply Forall_forall. intros z Hz.
    rewrite (insertSorted_Permutation compareFn x l) in Hz.
    apply elem_of_cons in Hz as [->|Hz]; [cbn; lia|].
    by eapply Forall_forall in Hy.
  - constructor; [by constructor|].
    constructor; [cbn; lia|].
    eapply Forall_impl; [exact Hy|]. cbn. lia.
Qed.

Lemma insertSorted_filter (k : Z) (x : A) (l : list A) :
  P x → Forall P l → StronglySorted keyLe l →
  List.filter (keyIs k) (insertSorted compareFn x l)
  = List.filter (keyIs k) l ++ List.filter (keyIs k) [x].
Proof.
  intros Hx Hl Hs. induction Hs as [|y l Hs IH Hy]; [done|].
  apply Forall_cons in Hl as [HPy Hl]. cbn [insertSorted].
  rewrite (compare_key y x HPy Hx). destruct (Z.leb_spec (key y - key x) 0).
  - cbn [List.filter]. rewrite IH by done. by destruct (key y =? k).
  - cbn [List.filter]. destruct (Z.eqb_spec (key x) k) as [Hk|Hk]; [|by rewrite app_nil_r].
    assert (Hnone : List.filter (keyIs k) (y :: l) = []).
    { apply filter_none. constructor; [apply Z.eqb_neq; lia|].
      eapply Forall_impl; [exact Hy|]. cbn. intros z Hz. apply Z.eqb_neq. lia. }
    cbn [List.filter] in Hnone. by rewrite Hnone.
Qed.

Lemma insertSorted_P (x : A) (l : list A) :
  P x → Forall P l → Forall P (insertSorted compareFn x l).
Proof.
  intros Hx Hl. rewrite insertSorted_Permutation. by constructor.
Qed.

Lemma arraySort_fold (l acc : list A) :
  Forall P l → Forall P acc → StronglySorted keyLe acc →
  let sorted := fold_left (λ sorted x, insertSorted compareFn x sorted) l acc in
  StronglySorted keyLe sorted
  ∧ ∀ k, List.filter (keyIs k) sorted = List.filter (keyIs k) acc ++ List.filter (keyIs k) l.
Proof.
  revert acc. induction l as [|x l IH]; intros acc Hl Hacc Hs; cbv zeta.
  - split; [done|]. intros k. by rewrite app_nil_r.
  - apply Forall_cons in Hl as [Hx Hl]. cbn [fold_left].
    destruct (IH (insertSorted compareFn x acc)) as [Hs' Hf];
      [done | by apply insertSorted_P | by apply insertSorted_sorted |].
    split; [done|]. intros k. rewrite Hf, insertSorted_filter by done.
    rewrite <- app_assoc. f_equal. cbn. by destruct (key x =? k).
Qed.

(** The sorted array is in non-decreasing key order, and elements of equal
    key keep the order they had in the input. *)
Lemma arraySort_sorted_stable (l : list A) :
  Forall P l →
  StronglySorted keyLe (arraySort compareFn l)
  ∧ ∀ k, List.filter (keyIs k) (arraySort compareFn l) = List.filter (keyIs k) l.
Proof.
  intros Hl. apply (arraySort_fold l []); [done | constructor | constructor].
Qed.

End SortByKey.

(** *** What a pass draws *)

Lemma decimateData_elem_of (data : list FormattedDataPoint) (maxPoints : nat)
    (p : FormattedDataPoint) :
  p ∈ decimateData data maxPoints → p ∈ data.
Proof.
  destruct (decimateData_indices data maxPoints p) as (-> & Hin & _).
  intros (k & -> & Hk)%list_elem_of_fmap.
  eapply Forall_forall in Hin; [|exact Hk].
  apply list_elem_of_In, nth_In. exact Hin.
Qed.

Lemma pointsInRange_dated (parseTime : string → option Z) (dateRange : DateRange)
    (d : Raw.SentimentData) :
  Forall (λ p, ∃ t, date p = Some t ∧ start dateRange ≤ t ≤ end_ dateRange)
         (pointsInRange parseTime dateRange d).
Proof.
  apply Forall_forall. intros p Hp%list_elem_of_In. unfold pointsInRange in Hp.
  apply filter_In in Hp as [_ Hp]. unfold inRange in Hp.
  destruct (date p) as [t|]; [|done]. exists t. split; [done|].
  apply andb_true_iff in Hp as [H1 H2]. lia.
Qed.

Lemma compareDates_dated (a b : FormattedDataPoint) :
  is_Some (date a) → is_Some (date b) → compareDates a b = timeOf a - timeOf b.
Proof.
  intros [ta Ha] [tb Hb]. unfold compareDates, timeOf. by rewrite Ha, Hb.
Qed.

Lemma sorted_timeOf_chronLe (l : list FormattedDataPoint) :
  Forall (λ p, is_Some (date p)) l →
  StronglySorted (λ a b, timeOf a ≤ timeOf b) l → StronglySorted chronLe l.
Proof.
  intros Hl Hs. induction Hs as [|x l Hs IH Hx]; [constructor|].
  apply Forall_cons in Hl as [Hdx Hl]. constructor; [by apply IH|].
  apply Forall_forall. intros y Hy. unfold chronLe.
  rewrite compareDates_dated; [|done | by eapply Forall_forall in Hl].
  eapply Forall_forall in Hx; [|exact Hy]. cbn in Hx. lia.
Qed.

Lemma formatSeries_facts (parseTime : string → option Z)
    (dateRange : DateRange) (d : Raw.SentimentData) :
  values (formatSeries parseTime dateRange d) ≡ₚ pointsInRange parseTime dateRange d
  ∧ Forall (λ p, ∃ t, date p = Some t ∧ start dateRange ≤ t ≤ end_ dateRange)
           (values (formatSeries parseTime dateRange d))
  ∧ StronglySorted chronLe (values (formatSeries parseTime dateRange d))
  ∧ ∀ t, List.filter (λ p, timeOf p =? t) (values (formatSeries parseTime dateRange d))
         = List.filter (λ p, timeOf p =? t) (pointsInRange parseTime dateRange d).
Proof.
  cbn [formatSeries values].
  pose proof (pointsInRange_dated parseTime dateRange d) as Hdated.
  assert (Hsome : Forall (λ p, is_Some (date p)) (pointsInRange parseTime dateRange d)).
  { eapply Forall_impl; [exact Hdated|]. cbn. intros p (t & -> & _). by eexists. }
  destruct (arraySort_sorted_stable compareDates timeOf (λ p, is_Some (date p))
              compareDates_dated _ Hsome) as [Hsorted Hstable].
  split; [apply arraySort_Permutation|]. split; [|split; [|done]].
  - by rewrite arraySort_Permutation.
  - apply sorted_timeOf_chronLe; [by rewrite arraySort_Permutation | done].
Qed.

(** X3.  The points of a formatted series are the parsed points that fall in the
    range (bounds included), each one once, in chronological order; points
    with the same timestamp keep the order of the raw data. *)
Theorem formatSeries_sorted_in_range (parseTime : string → option Z)
    (dateRange : DateRange) (d : Raw.SentimentData) :
  values (formatSeries parseTime dateRange d) ≡ₚ pointsInRange parseTime dateRange d
  ∧ Forall (λ p, ∃ t, date p = Some t ∧ start dateRange ≤ t ≤ end_ dateRange)
           (values (formatSeries parseTime dateRange d))
  ∧ StronglySorted chronLe (values (formatSeries parseTime dateRange d))
  ∧ ∀ t, List.filter (λ p, timeOf p =? t) (values (formatSeries parseTime dateRange d))
         = List.filter (λ p, timeOf p =? t) (pointsInRange parseTime dateRange d).
Proof. apply formatSeries_facts. Qed.

Lemma maxPointsPerLine_mono (w1 w2 : Z) :
  w1 ≤ w2 → (maxPointsPerLine w1 ≤ maxPointsPerLine w2)%nat.
Proof.
  intros Hw. unfold maxPointsPerLine.
  pose proof (Z.div_le_mono w1 w2 3 ltac:(lia) Hw). lia.
Qed.

(** X4.  What is on the chart: one series per visible raw series, in the order of
    the raw data and under its name; at most the width-derived budget of
    points in each, in chronological order, all inside the range, each one a
    parsed pair of that raw series; and at least one point overall. *)
Theorem chart_contents (parseTime : string → option Z)
    (sentimentData : list Raw.SentimentData) (visibleLines : gmap string bool)
    (dateRange : DateRange) (clientWidth : Z) (formattedData : list FormattedSeries) :
  renderChart parseTime sentimentData visibleLines (Some dateRange) clientWidth
  = Chart formattedData →
  130 < clientWidth
  ∧ Forall2 (λ d series,
       name series = Raw.name d
       ∧ (length (values series) ≤ maxPointsPerLine (clientWidth - 50 - 80))%nat
       ∧ StronglySorted chronLe (values series)
       ∧ Forall (λ p, (∃ t, date p = Some t ∧ start dateRange ≤ t ≤ end_ dateRange)
                      ∧ ∃ v, v ∈ Raw.values d ∧ p = mkPoint (parseTime (fst v)) (snd v))
                (values series))
     (List.filter (isVisible visibleLines) sentimentData) formattedData
  ∧ Exists (λ series, values series ≠ []) formattedData.
Proof.
  unfold renderChart. cbv zeta.
  destruct (Z.leb_spec (clientWidth - 50 - 80) 0) as [|Hw]; [done|].
  destruct (noPoints _) eqn:E; [done|]. intros [= <-].
  split; [lia|]. split.
  - rewrite map_map. apply Forall2_fmap_r, Forall_Forall2_diag, Forall_forall.
    intros d _.
    destruct (formatSeries_facts parseTime dateRange d)
      as (Hperm & Hdated & Hsorted & _).
    unfold decimateSeries, compose. cbn [name values].
    split; [done|]. split; [|split].
    + pose proof (maxPointsPerLine_ge (clientWidth - 50 - 80)).
      rewrite decimateData_length_min by lia. lia.
    + by apply decimateData_chronological_helper.
    + apply Forall_forall. intros p Hp%decimateData_elem_of. split.
      * by eapply Forall_forall in Hdated.
      * rewrite Hperm in Hp. apply list_elem_of_In in Hp. unfold pointsInRange in Hp.
        apply filter_In in Hp as [Hp _]. apply in_map_iff in Hp as (v & <- & Hv).
        exists v. split; [by apply list_elem_of_In | done].
  - apply not_true_iff_false in E. rewrite noPoints_spec in E.
    apply not_Forall_Exists in E; [done|]. intros series. apply _.
Qed.

Lemma chart_contents_witness :
  renderChart sampleParseTime sampleData allVisible (Some sampleRange) 1000
  = Chart sampleDrawn
  ∧ 130 < 1000
  ∧ Exists (λ series, values series ≠ []) sampleDrawn.
Proof.
  assert (H : renderChart sampleParseTime sampleData allVisible (Some sampleRange) 1000
              = Chart sampleDrawn) by (by vm_compute).
  destruct (chart_contents sampleParseTime sampleData allVisible sampleRange 1000
              sampleDrawn H) as (Hw & _ & Hex).
  exact (conj H (conj Hw Hex)).
Defined.

(** X5.  A wider container never draws fewer points: with the same data,
    visibility set and range, the number of points drawn does not decrease
    when [clientWidth] grows. *)
Theorem renderedPoints_width_monotone (parseTime : string → option Z)
    (sentimentData : list Raw.SentimentData) (visibleLines : gmap string bool)
    (dateRange : DateRange) (w1 w2 : Z) :
  w1 ≤ w2 →
  (renderedPoints (renderChart parseTime sentimentData visibleLines (Some dateRange) w1)
   ≤ renderedPoints (renderChart parseTime sentimentData visibleLines (Some dateRange) w2))%nat.
Proof.
  intros Hw. rewrite !renderedPoints_renderChart.
  destruct (Z.leb_spec (w1 - 50 - 80) 0) as [H1|H1]; [lia|].
  destruct (Z.leb_spec (w2 - 50 - 80) 0) as [H2|H2]; [lia|].
  apply sum_list_map_mono. intros d.
  pose proof (maxPointsPerLine_ge (w1 - 50 - 80)).
  pose proof (maxPointsPerLine_mono (w1 - 50 - 80) (w2 - 50 - 80) ltac:(lia)).
  rewrite !decimateData_length_min by lia. lia.
Qed.

Lemma renderedPoints_width_monotone_witness :
  300 ≤ 1200
  ∧ (renderedPoints (renderChart sampleParseTime sampleData allVisible
                       (Some sampleRange) 300)
     ≤ renderedPoints (renderChart sampleParseTime sampleData allVisible
                         (Some sampleRange) 1200))%nat.
Proof.
  assert (H : 300 ≤ 1200) by lia.
  exact (conj H (renderedPoints_width_monotone sampleParseTime sampleData allVisible
                   sampleRange 300 1200 H)).
Defined.

End PipelineFacts.

(** ** More on the hover *)

Module HoverFacts.

Import NearestPoint Renderer NearestPointFacts RendererFacts.

Open Scope Z_scope.

(** *** The timestamps of the lookup table *)

(** X6.  A pointer exactly on a timestamp of the array selects that timestamp. *)
Theorem selectedTimestamp_exact (ts : list Z) (m : Z) :
  StronglySorted Z.lt ts → m ∈ ts → selectedTimestamp ts m = Some m.
Proof.
  intros Hs Hm.
  assert (Hne : ts ≠ []) by (intros ->; by apply elem_of_nil in Hm).
  destruct (selectedTimestamp_nearest ts m Hne Hs) as (q & -> & _ & Hmin).
  specialize (Hmin m Hm). f_equal. lia.
Qed.

Lemma selectedTimestamp_exact_witness :
  StronglySorted Z.lt tieTimestamps ∧ 30 ∈ tieTimestamps
  ∧ selectedTimestamp tieTimestamps 30 = Some 30.
Proof.
  assert (Hs : StronglySorted Z.lt tieTimestamps)
    by (unfold tieTimestamps; repeat constructor; lia).
  assert (Hm : 30 ∈ tieTimestamps)
    by (unfold tieTimestamps; do 3 apply list_elem_of_further; apply list_elem_of_here).
  exact (conj Hs (conj Hm (selectedTimestamp_exact tieTimestamps 30 Hs Hm))).
Defined.

Lemma addPoint_is_Some (seriesName : string) (dateValues : gmap Z (gmap string Q))
    (point : FormattedDataPoint) (t : Z) :
  is_Some (addPoint seriesName dateValues point !! t)
  ↔ date point = Some t ∨ is_Some (dateValues !! t).
Proof.
  unfold addPoint. destruct (date point) as [t'|].
  - destruct (decide (t' = t)) as [->|Hne].
    + rewrite lookup_insert_eq. split; [by left | by eexists].
    + rewrite lookup_insert_ne by done. split; [by right|].
      intros [[= ?]|H]; done.
  - split; [by right|]. by intros [?|?].
Qed.

Lemma points_is_Some (seriesName : string) (points : list FormattedDataPoint)
    (dateValues : gmap Z (gmap string Q)) (t : Z) :
  is_Some (fold_left (addPoint seriesName) points dateValues !! t)
  ↔ (∃ p, p ∈ points ∧ date p = Some t) ∨ is_Some (dateValues !! t).
Proof.
  revert dateValues. induction points as [|p points IH]; intros dateValues.
  - cbn. split; [by right|]. intros [(p & Hp & _)|H]; [by apply elem_of_nil in Hp | done].
  - cbn [fold_left]. rewrite IH, addPoint_is_Some. split.
    + intros [(q & Hq & Hd)|[Hd|H]]; [left | left | by right].
      * exists q. split; [by apply list_elem_of_further | done].
      * exists p. split; [apply list_elem_of_here | done].
    + intros [(q & Hq & Hd)|H]; [|by right; right].
      apply elem_of_cons in Hq as [->|Hq]; [by right; left|].
      left. by exists q.
Qed.

Lemma series_is_Some (formattedData : list FormattedSeries)
    (dateValues : gmap Z (gmap string Q)) (t : Z) :
  is_Some (fold_left (λ dateValues series,
                        fold_left (addPoint (name series)) (values series) dateValues)
                     formattedData dateValues !! t)
  ↔ (∃ s p, s ∈ formattedData ∧ p ∈ values s ∧ date p = Some t)
    ∨ is_Some (dateValues !! t).
Proof.
  revert dateValues. induction formattedData as [|s fd IH]; intros dateValues.
  - cbn. split; [by right|].
    intros [(s & p & Hs & _)|H]; [by apply elem_of_nil in Hs | done].
  - cbn [fold_left]. rewrite IH, points_is_Some. split.
    + intros [(s' & p & Hs' & Hp)|[(p & Hp)|H]]; [left | left | by right].
      * exists s', p. split; [by apply list_elem_of_further | done].
      * exists s, p. split; [apply list_elem_of_here | done].
    + intros [(s' & p & Hs' & Hp)|H]; [|by right; right].
      apply elem_of_cons in Hs' as [->|Hs']; [right; left; by exists p|].
      left. by exists s', p.
Qed.

Lemma sortedTimestamps_elem_of (dateValues : gmap Z (gmap string Q)) (t : Z) :
  t ∈ sortedTimestamps dateValues ↔ is_Some (dateValues !! t).
Proof.
  unfold sortedTimestamps. rewrite merge_sort_Permutation, list_elem_of_fmap. split.
  - intros ([t' v] & -> & Hv%elem_of_map_to_list). by exists v.
  - intros [v Hv]. exists (t, v). split; [done | by apply elem_of_map_to_list].
Qed.

Lemma timestamps_of_drawn_points (formattedData : list FormattedSeries) (t : Z) :
  t ∈ sortedTimestamps (buildDateValues formattedData)
  ↔ ∃ s p, s ∈ formattedData ∧ p ∈ values s ∧ date p = Some t.
Proof.
  rewrite sortedTimestamps_elem_of. unfold buildDateValues. rewrite series_is_Some.
  split; [|by left]. intros [H|H]; [done|]. rewrite lookup_empty in H. by destruct H.
Qed.

(** X7.  The timestamps that the hover searches are the timestamps of the drawn
    points, each one once, in increasing order. *)
Theorem hover_timestamps (formattedData : list FormattedSeries) :
  StronglySorted Z.lt (sortedTimestamps (buildDateValues formattedData))
  ∧ ∀ t, t ∈ sortedTimestamps (buildDateValues formattedData)
         ↔ ∃ s p, s ∈ formattedData ∧ p ∈ values s ∧ date p = Some t.
Proof.
  split; [apply sortedTimestamps_sorted | apply timestamps_of_drawn_points].
Qed.

(** X8.  The hover finds nothing only when no series has a dated point; when it
    finds a timestamp, that is the timestamp of a drawn point, no drawn
    point is nearer to the pointer, and the tooltip has one row per series,
    in the order of the series. *)
Theorem mousemove_resolves (formattedData : list FormattedSeries) (mouseDate : Z) :
  (mousemove formattedData mouseDate = None
   ↔ ∀ s p, s ∈ formattedData → p ∈ values s → date p = None)
  ∧ ∀ ts rows, mousemove formattedData mouseDate = Some (ts, rows) →
      (∃ s p, s ∈ formattedData ∧ p ∈ values s ∧ date p = Some ts)
      ∧ (∀ s p t, s ∈ formattedData → p ∈ values s → date p = Some t →
                  Z.abs (ts - mouseDate) ≤ Z.abs (t - mouseDate))
      ∧ map fst rows = map name formattedData.
Proof.
  split.
  - unfold mousemove. cbv zeta.
    set (sorted := sortedTimestamps (buildDateValues formattedData)).
    assert (Hnil : sorted = [] ↔ ∀ s p, s ∈ formattedData → p ∈ values s → date p = None).
    { split.
      - intros Hnil s p Hs Hp. destruct (date p) as [t|] eqn:Hd; [|done].
        assert (Ht : t ∈ sorted) by (apply timestamps_of_drawn_points; by exists s, p).
        rewrite Hnil in Ht. by apply elem_of_nil in Ht.
      - intros Hnone. destruct sorted as [|t rest] eqn:E; [done|].
        assert (Ht : t ∈ sorted) by (rewrite E; apply list_elem_of_here).
        apply timestamps_of_drawn_points in Ht as (s & p & Hs & Hp & Hd).
        by rewrite (Hnone s p Hs Hp) in Hd. }
    rewrite <- Hnil. unfold selectedTimestamp.
    destruct sorted as [|t rest]; cbn [length Nat.eqb]; [done|]. split; done.
  - intros ts rows H. apply mousemove_nearest in H as (Hin & Hmin & ->).
    split; [by apply timestamps_of_drawn_points|]. split.
    + intros s p t Hs Hp Hd. apply Hmin, timestamps_of_drawn_points. by exists s, p.
    + unfold tooltipRows. by rewrite map_map.
Qed.

(** *** The values of the lookup table *)

Lemma points_other_name (seriesName : string) (points : list FormattedDataPoint)
    (dateValues : gmap Z (gmap string Q)) (ts : Z) (nm : string) :
  seriesName ≠ nm →
  seriesValueAt (fold_left (addPoint seriesName) points dateValues) ts nm
  = seriesValueAt dateValues ts nm.
Proof.
  intros Hne. revert dateValues. induction points as [|p points IH]; intros dateValues;
    [done|].
  cbn [fold_left]. rewrite IH, seriesValueAt_addPoint.
  rewrite decide_False; [done|]. by intros [_ ?].
Qed.

Lemma points_no_match (seriesName : string) (points : list FormattedDataPoint)
    (dateValues : gmap Z (gmap string Q)) (ts : Z) (nm : string) :
  (∀ q, q ∈ points → date q ≠ Some ts) →
  seriesValueAt (fold_left (addPoint seriesName) points dateValues) ts nm
  = seriesValueAt dateValues ts nm.
Proof.
  revert dateValues. induction points as [|p points IH]; intros dateValues Hno; [done|].
  cbn [fold_left]. rewrite IH by (intros q Hq; apply Hno; by apply list_elem_of_further).
  rewrite seriesValueAt_addPoint. rewrite decide_False; [done|].
  intros [Hd _]. by apply (Hno p); [apply list_elem_of_here|].
Qed.

Lemma points_last_match (seriesName : string) (before after : list FormattedDataPoint)
    (p : FormattedDataPoint) (dateValues : gmap Z (gmap string Q)) (ts : Z) :
  date p = Some ts → (∀ q, q ∈ after → date q ≠ Some ts) →
  seriesValueAt (fold_left (addPoint seriesName) (before ++ p :: after) dateValues)
    ts seriesName
  = Some (value p).
Proof.
  intros Hd Hno. rewrite fold_left_app. cbn [fold_left].
  rewrite points_no_match by done. rewrite seriesValueAt_addPoint.
  by rewrite decide_True.
Qed.

Lemma series_other_names (formattedData : list FormattedSeries)
    (dateValues : gmap Z (gmap string Q)) (ts : Z) (nm : string) :
  (∀ s, s ∈ formattedData → name s ≠ nm) →
  seriesValueAt
    (fold_left (λ dateValues series,
                  fold_left (addPoint (name series)) (values series) dateValues)
               formattedData dateValues) ts nm
  = seriesValueAt dateValues ts nm.
Proof.
  revert dateValues. induction formattedData as [|s fd IH]; intros dateValues Hno; [done|].
  cbn [fold_left]. rewrite IH by (intros s' Hs'; apply Hno; by apply list_elem_of_further).
  apply points_other_name, Hno, list_elem_of_here.
Qed.

Lemma seriesValueAt_last_point (formattedData : list FormattedSeries)
    (s : FormattedSeries) (before after : list FormattedDataPoint)
    (p : FormattedDataPoint) (ts : Z) :
  NoDup (map name formattedData) → s ∈ formattedData →
  values s = before ++ p :: after → date p = Some ts →
  (∀ q, q ∈ after → date q ≠ Some ts) →
  seriesValueAt (buildDateValues formattedData) ts (name s) = Some (value p).
Proof.
  intros Hnd Hs Hvals Hd Hno.
  apply list_elem_of_split in Hs as (f1 & f2 & ->).
  rewrite map_app in Hnd. cbn [map] in Hnd.
  apply NoDup_app in Hnd as (_ & _ & Hnd). apply NoDup_cons in Hnd as [Hnotin _].
  unfold buildDateValues. rewrite fold_left_app. cbn [fold_left].
  rewrite series_other_names.
  - rewrite Hvals. by apply points_last_match.
  - intros s' Hs' Hn. apply Hnotin. rewrite <- Hn. apply list_elem_of_fmap. by exists s'.
Qed.

(** X9.  With one series per name, the row of a series that has a point at the
    timestamp under the crosshair shows the value of that point, or of the
    last such point when the series has several at that timestamp; in both
    charts. *)
Theorem tooltip_shows_drawn_value (formattedData : list FormattedSeries)
    (s : FormattedSeries) (before after : list FormattedDataPoint)
    (p : FormattedDataPoint) (ts : Z) :
  NoDup (map name formattedData) → s ∈ formattedData →
  values s = before ++ p :: after → date p = Some ts →
  (∀ q, q ∈ after → date q ≠ Some ts) →
  (name s, Shown (value p))
    ∈ tooltipRows formattedData (buildDateValues formattedData) ts
  ∧ (name s, Shown (value p))
    ∈ tooltipRowsV2 formattedData (buildDateValues formattedData) ts.
Proof.
  intros Hnd Hs Hvals Hd Hno.
  pose proof (seriesValueAt_last_point formattedData s before after p ts
                Hnd Hs Hvals Hd Hno) as Hv.
  split; apply list_elem_of_fmap; exists s; (split; [|done]); by rewrite Hv.
Qed.

Lemma tooltip_shows_drawn_value_witness :
  NoDup (map name sampleDrawn)
  ∧ (("-1"%string, Shown 6)
       ∈ tooltipRows sampleDrawn (buildDateValues sampleDrawn) 1704240000000)
  ∧ (("-1"%string, Shown 6)
       ∈ tooltipRowsV2 sampleDrawn (buildDateValues sampleDrawn) 1704240000000).
Proof.
  assert (Hnd : NoDup (map name sampleDrawn)).
  { cbn. apply NoDup_cons. split; [|apply NoDup_singleton].
    intros H%list_elem_of_singleton. discriminate H. }
  assert (Hs : mkSeries "-1" [ mkPoint (Some 1704067200000) 4;
                               mkPoint (Some 1704240000000) 6 ] ∈ sampleDrawn)
    by apply list_elem_of_here.
  exact (conj Hnd
           (tooltip_shows_drawn_value sampleDrawn _
              [ mkPoint (Some 1704067200000) 4 ] [] (mkPoint (Some 1704240000000) 6)
              1704240000000 Hnd Hs eq_refl eq_refl
              (λ q Hq, False_ind _ (proj1 (elem_of_nil q) Hq)))).
Defined.

End HoverFacts.

(** ** Loading, legend, overview and pointer handling *)

Module ControlsFacts.

Import Decimator Renderer Chart Controls.
Import DecimatorFacts RendererFacts PipelineFacts.

Open Scope Z_scope.

(** *** The loaded state and the reset *)

Lemma extent_fold (rest : list Z) (lo hi : Z) (seen : list Z) :
  lo ∈ seen → hi ∈ seen → (∀ x, x ∈ seen → lo ≤ x ≤ hi) →
  let '(lo', hi') :=
    fold_left (λ '(lo, hi) value,
                 (if value <? lo then value else lo, if hi <? value then value else hi))
              rest (lo, hi) in
  lo' ∈ seen ++ rest ∧ hi' ∈ seen ++ rest ∧ ∀ x, x ∈ seen ++ rest → lo' ≤ x ≤ hi'.
Proof.
  revert lo hi seen. induction rest as [|v rest IH]; intros lo hi seen Hlo Hhi Hb.
  - cbn. by rewrite app_nil_r.
  - cbn [fold_left].
    specialize (IH (if v <? lo then v else lo) (if hi <? v then v else hi) (seen ++ [v])).
    rewrite <- app_assoc in IH. cbn [app] in IH. apply IH.
    + destruct (v <? lo); apply elem_of_app; [right; apply list_elem_of_here | by left].
    + destruct (hi <? v); apply elem_of_app; [right; apply list_elem_of_here | by left].
    + intros x [Hx| ->%list_elem_of_singleton]%elem_of_app.
      * specialize (Hb x Hx). destruct (Z.ltb_spec v lo), (Z.ltb_spec hi v); lia.
      * pose proof (Hb lo Hlo). destruct (Z.ltb_spec v lo), (Z.ltb_spec hi v); lia.
Qed.

Lemma extent_spec (values : list Z) (lo hi : Z) :
  extent values = Some (lo, hi) →
  lo ∈ values ∧ hi ∈ values ∧ ∀ x, x ∈ values → lo ≤ x ≤ hi.
Proof.
  destruct values as [|v rest]; [done|]. cbn [extent]. intros [= H].
  pose proof (extent_fold rest v v [v]) as Hf. rewrite H in Hf. cbn [app] in Hf.
  apply Hf; [apply list_elem_of_here | apply list_elem_of_here |].
  intros x ->%list_elem_of_singleton. lia.
Qed.

Lemma allDates_elem_of (parseTime : string → option Z) (data : list Raw.SentimentData)
    (t : Z) :
  t ∈ allDates parseTime data
  ↔ ∃ d v, d ∈ data ∧ v ∈ Raw.values d ∧ parseTime (fst v) = Some t.
Proof.
  unfold allDates. rewrite list_elem_of_omap. split.
  - intros (o & Ho & Hid). cbn in Hid. subst o.
    apply list_elem_of_In, in_flat_map in Ho as (d & Hd & Hv).
    apply in_map_iff in Hv as (v & Hv & Hin).
    exists d, v. by rewrite <- !list_elem_of_In in *.
  - intros (d & v & Hd & Hv & Ht). exists (Some t). split; [|done].
    apply list_elem_of_In, in_flat_map. exists d. split; [by apply list_elem_of_In|].
    apply in_map_iff. exists v. split; [done | by apply list_elem_of_In].
Qed.

Lemma initialVisibility_lookup (data : list Raw.SentimentData) (nm : string) :
  nm ∈ map Raw.name data → initialVisibility data !! nm = Some true.
Proof.
  unfold initialVisibility.
  assert (H : ∀ acc : gmap string bool,
             (nm ∈ map Raw.name data ∨ acc !! nm = Some true) →
                     fold_left (λ initialVisibility line,
                                  <[Raw.name line := true]> initialVisibility)
                               data acc !! nm = Some true).
  { induction data as [|d data IH]; intros acc [Hin|Hacc].
    - by apply elem_of_nil in Hin.
    - done.
    - cbn [fold_left]. apply IH. cbn [map] in Hin.
      apply elem_of_cons in Hin as [->|Hin]; [right; apply lookup_insert_eq | by left].
    - cbn [fold_left]. apply IH. right.
      destruct (decide (Raw.name d = nm)) as [->|Hne];
        [apply lookup_insert_eq | by rewrite lookup_insert_ne]. }
  intros Hin. apply H. by left.
Qed.

Lemma filter_all {A : Type} (f : A → bool) (l : list A) :
  Forall (λ x, f x = true) l → List.filter f l = l.
Proof.
  induction 1 as [|x l Hx _ IH]; [done|]. cbn. by rewrite Hx, IH.
Qed.

Lemma loaded_state_facts (parseTime : string → option Z)
    (data : list Raw.SentimentData) (r : DateRange) :
  initialDateRange parseTime data = Some r →
  start r ≤ end_ r
  ∧ (∃ d v, d ∈ data ∧ v ∈ Raw.values d ∧ parseTime (fst v) = Some (start r))
  ∧ (∃ d v, d ∈ data ∧ v ∈ Raw.values d ∧ parseTime (fst v) = Some (end_ r))
  ∧ List.filter (isVisible (initialVisibility data)) data = data
  ∧ (∀ d, d ∈ data → pointsInRange parseTime r d = datedPoints parseTime d)
  ∧ resetZoom parseTime data = Some r.
Proof.
  unfold initialDateRange, resetZoom.
  destruct (extent (allDates parseTime data)) as [[lo hi]|] eqn:E; [|done].
  intros [= <-]. cbn [start end_].
  apply extent_spec in E as (Hlo & Hhi & Hb).
  split; [by apply Hb|].
  split; [by apply allDates_elem_of|]. split; [by apply allDates_elem_of|].
  split; [|split; [|done]].
  - apply filter_all, Forall_forall. intros d Hd. unfold isVisible.
    rewrite initialVisibility_lookup; [done|]. apply list_elem_of_fmap. by exists d.
  - intros d Hd. unfold pointsInRange, datedPoints. apply filter_ext_in.
    intros p Hp. apply in_map_iff in Hp as (v & <- & Hv). unfold inRange. cbn [date].
    destruct (parseTime v.1) as [t|] eqn:Ht; [|done].
    assert (Hin : t ∈ allDates parseTime data).
    { apply allDates_elem_of. exists d, v. by rewrite <- list_elem_of_In in Hv. }
    specialize (Hb t Hin). cbn [start end_].
    rewrite bool_decide_eq_true_2 by done.
    apply andb_true_iff. split; apply Z.leb_le; lia.
Qed.

(** X10.  After a load, and after a click on the reset button, the range runs
    from the earliest to the latest date that parses, both of them dates of
    the data; every loaded series is visible, and the range filter keeps
    every point whose date parses. *)
Theorem loaded_state_shows_everything (parseTime : string → option Z)
    (data : list Raw.SentimentData) (r : DateRange) :
  initialDateRange parseTime data = Some r →
  start r ≤ end_ r
  ∧ (∃ d v, d ∈ data ∧ v ∈ Raw.values d ∧ parseTime (fst v) = Some (start r))
  ∧ (∃ d v, d ∈ data ∧ v ∈ Raw.values d ∧ parseTime (fst v) = Some (end_ r))
  ∧ List.filter (isVisible (initialVisibility data)) data = data
  ∧ (∀ d, d ∈ data → pointsInRange parseTime r d = datedPoints parseTime d)
  ∧ resetZoom parseTime data = Some r.
Proof. apply loaded_state_facts. Qed.

Lemma loaded_state_shows_everything_witness :
  initialDateRange sampleParseTime sampleData = Some sampleRange
  ∧ start sampleRange ≤ end_ sampleRange
  ∧ List.filter (isVisible (initialVisibility sampleData)) sampleData = sampleData.
Proof.
  assert (H : initialDateRange sampleParseTime sampleData = Some sampleRange)
    by (by vm_compute).
  destruct (loaded_state_shows_everything sampleParseTime sampleData sampleRange H)
    as (H1 & _ & _ & H2 & _).
  exact (conj H (conj H1 H2)).
Defined.

(** *** The legend *)








(** *** The overview *)

Lemma decimateData_head_last (data : list FormattedDataPoint) (maxPoints : nat) :
  head (decimateData data maxPoints) = head data
  ∧ last (decimateData data maxPoints) = last data.
Proof.
  destruct (decide (length data ≤ maxPoints)%nat) as [Hle|Hgt].
  - by rewrite decimateData_short.
  - destruct data as [|d0 rest]; [cbn in Hgt; lia|].
    rewrite decimateData_unfold by lia. split; [done|].
    by rewrite app_comm_cons, last_snoc, last_nth.
Qed.

Lemma sorted_head_last (l : list FormattedDataPoint) (first final p : FormattedDataPoint) :
  StronglySorted (λ a b, timeOf a ≤ timeOf b) l →
  head l = Some first → last l = Some final → p ∈ l →
  timeOf first ≤ timeOf p ≤ timeOf final.
Proof.
  intros Hs Hfirst Hlast Hp. split.
  - destruct l as [|x l]; [done|]. injection Hfirst as ->.
    apply StronglySorted_inv in Hs as [_ Hx].
    apply elem_of_cons in Hp as [->|Hp]; [lia|]. by eapply Forall_forall in Hx.
  - destruct (list_elem_of_split _ _ Hp) as (l1 & l2 & ->).
    destruct l2 as [|y l2 _] using rev_ind.
    + rewrite last_snoc in Hlast. injection Hlast as ->. lia.
    + rewrite app_comm_cons, app_assoc, last_snoc in Hlast. injection Hlast as ->.
      apply StronglySorted_app_1_r, StronglySorted_inv in Hs as [_ Hall].
      eapply Forall_forall in Hall; [exact Hall|].
      apply elem_of_app. right. apply list_elem_of_here.
Qed.

(** X13.  The mini chart of a series does not depend on the range or on the
    visibility set.  It holds at most 50 of the points whose date parses,
    in chronological order, and it starts at the earliest and ends at the
    latest of them. *)
Theorem overview_spans_series (parseTime : string → option Z)
    (series : Raw.SentimentData) :
  length (overviewValues parseTime series)
  = Nat.min (length (datedPoints parseTime series)) 50
  ∧ StronglySorted chronLe (overviewValues parseTime series)
  ∧ (∀ p, p ∈ overviewValues parseTime series → p ∈ datedPoints parseTime series)
  ∧ (datedPoints parseTime series ≠ [] →
     ∃ first final,
       head (overviewValues parseTime series) = Some first
       ∧ last (overviewValues parseTime series) = Some final
       ∧ ∀ p, p ∈ datedPoints parseTime series →
              timeOf first ≤ timeOf p ≤ timeOf final).
Proof.
  unfold overviewValues.
  set (dated := datedPoints parseTime series).
  assert (Hsome : Forall (λ p, is_Some (date p)) dated).
  { apply Forall_forall. intros p Hp%list_elem_of_In. apply filter_In in Hp as [_ Hp].
    apply bool_decide_eq_true in Hp. by destruct (date p); [eexists|]. }
  destruct (arraySort_sorted_stable compareDates timeOf (λ p, is_Some (date p))
              compareDates_dated dated Hsome) as [Hsorted _].
  pose proof (arraySort_Permutation compareDates dated) as Hperm.
  split; [|split; [|split]].
  - rewrite decimateData_length_min by lia. by rewrite arraySort_length.
  - apply decimateData_chronological_helper, sorted_timeOf_chronLe; [|done].
    by rewrite Hperm.
  - intros p Hp%decimateData_elem_of. by rewrite Hperm in Hp.
  - intros Hne.
    destruct (decimateData_head_last (arraySort compareDates dated) 50) as [-> ->].
    destruct (arraySort compareDates dated) as [|x sorted] eqn:E.
    { apply Permutation_nil_l in Hperm. done. }
    rewrite <- E in *. clear E.
    assert (is_Some (head (arraySort compareDates dated))) as [first Hfirst].
    { destruct (arraySort compareDates dated) eqn:E'; [|by eexists].
      apply Permutation_nil_l in Hperm. by rewrite <- Hperm in Hne. }
    assert (is_Some (last (arraySort compareDates dated))) as [final Hfinal].
    { apply last_is_Some. intros E'. rewrite E' in Hfirst. done. }
    exists first, final. split; [done|]. split; [done|].
    intros p Hp. apply (sorted_head_last (arraySort compareDates dated)); try done.
    by rewrite Hperm.
Qed.

(** *** The pointer *)

Lemma handledMoves_facts (lastMove : Z) (nows : list Z) :
  handledMoves lastMove nows `sublist_of` nows
  ∧ Sorted (λ a b, a + throttleDelay ≤ b) (lastMove :: handledMoves lastMove nows)
  ∧ (Sorted (λ a b, a + throttleDelay ≤ b) (lastMove :: nows) →
     handledMoves lastMove nows = nows).
Proof.
  revert lastMove. induction nows as [|now rest IH]; intros lastMove.
  - cbn. split; [done|]. split; [repeat constructor | done].
  - cbn [handledMoves]. destruct (Z.ltb_spec (now - lastMove) throttleDelay) as [Hlt|Hge].
    + destruct (IH lastMove) as (Hsub & Hsorted & _).
      split; [by apply sublist_cons|]. split; [done|].
      intros Hs. apply Sorted_inv in Hs as [_ Hhd]. apply HdRel_inv in Hhd. lia.
    + destruct (IH now) as (Hsub & Hsorted & Hall).
      split; [by apply sublist_skip|]. split.
      * constructor; [done|]. constructor. lia.
      * intros Hs. apply Sorted_inv in Hs as [Hs _]. by rewrite Hall.
Qed.

(** X14.  The throttle lets through a sub-run of the pointer events in which each
    event comes at least 30 ms after the one handled before it, the first
    at least 30 ms after [lastMove]; events that are already that far apart
    all get through. *)
Theorem handledMoves_spaced (lastMove : Z) (nows : list Z) :
  handledMoves lastMove nows `sublist_of` nows
  ∧ Sorted (λ a b, a + throttleDelay ≤ b) (lastMove :: handledMoves lastMove nows)
  ∧ (Sorted (λ a b, a + throttleDelay ≤ b) (lastMove :: nows) →
     handledMoves lastMove nows = nows).
Proof. apply handledMoves_facts. Qed.

Lemma Qltb_true (a b : Q) : Qltb a b = true ↔ (a < b)%Q.
Proof. unfold Qltb. apply (Qgtb_true b a). Qed.

Lemma Qltb_false (a b : Q) : Qltb a b = false ↔ (b <= a)%Q.
Proof. unfold Qltb. apply (Qgtb_false b a). Qed.

(** X15.  The tooltip of the stacked chart never covers the pointer: either it
    starts 15 pixels to the right of it and then ends at least 5 pixels
    inside the container, or it ends 10 pixels to the left of it; it goes
    to the left exactly when less than [tooltipWidth + 20] pixels remain on
    the right. *)
Theorem tooltipX_beside_pointer (containerWidth offsetX tooltipWidth : Q) :
  (0 <= tooltipWidth)%Q →
  let x := tooltipX containerWidth offsetX tooltipWidth in
  ((tooltipWidth + 20 <= containerWidth - offsetX)%Q
   ∧ (x == offsetX + 15)%Q ∧ (x + tooltipWidth <= containerWidth - 5)%Q)
  ∨ ((containerWidth - offsetX < tooltipWidth + 20)%Q
     ∧ (x + tooltipWidth == offsetX - 10)%Q).
Proof.
  intros Hw. cbv zeta. unfold tooltipX.
  destruct (Qltb _ _) eqn:E.
  - right. apply Qltb_true in E. split; [done|]. ring.
  - left. apply Qltb_false in E. split; [done|]. split; [reflexivity|]. lra.
Qed.

Lemma tooltipX_beside_pointer_witness :
  (0 <= 200)%Q
  ∧ (tooltipX 800 700 200 + 200 == 700 - 10)%Q
  ∧ (tooltipX 800 100 200 == 100 + 15)%Q.
Proof.
  assert (Hw : (0 <= 200)%Q) by (unfold Qle; cbn; lia).
  split; [exact Hw|]. split.
  - destruct (tooltipX_beside_pointer 800 700 200 Hw) as [(H & _)|(_ & H)];
      [exfalso; revert H; unfold Qle; cbn; lia | exact H].
  - destruct (tooltipX_beside_pointer 800 100 200 Hw) as [(_ & H & _)|(H & _)];
      [exact H | exfalso; revert H; unfold Qlt; cbn; lia].
Defined.

(** *** Colours, labels and the order of the stacked chart *)

Ltac colour_case :=
  cbn; split;
  [ intros [Hl Hc];
    first [ discriminate Hc | by destruct Hl | by left | by right; left | by right; right ]
  | intros [H|[H|H]];
    first [ discriminate H | by split | congruence ] ].

(** X16.  The label and the colour of the stacked chart disagree on two names:
    a series named [1] or [2], without the plus sign, is labelled Positive
    or Very Positive and painted in the grey of the neutral series; no
    other labelled series shares that grey. *)
Theorem label_colour_mismatch (name : string) :
  (sentimentLabel name ≠ "" ∧ getSentimentColor name = getSentimentColor "0")
  ↔ name = "0" ∨ name = "1" ∨ name = "2".
Proof.
  unfold sentimentLabel, getSentimentColor.
  destruct (String.eqb_spec name "-2") as [->|H1]; [colour_case|].
  destruct (String.eqb_spec name "-1") as [->|H2]; [colour_case|].
  destruct (String.eqb_spec name "0") as [->|H3]; [colour_case|].
  destruct (String.eqb_spec name "+1") as [->|H4]; [colour_case|].
  destruct (String.eqb_spec name "+2") as [->|H5]; [colour_case|].
  destruct (String.eqb_spec name "1") as [->|H6]; [colour_case|].
  destruct (String.eqb_spec name "2") as [->|H7]; colour_case.
Qed.




End ControlsFacts.


(** ** The data store *)

Module DataStoreFacts.
Import DataStore.

Open Scope string_scope.

Lemma append_inj_l (s t1 t2 : string) : s ++ t1 = s ++ t2 → t1 = t2.
Proof. induction s as [|c s IH]; cbn; [done|]. intros [=]. by apply IH. Qed.

Lemma append_empty_r (s : string) : s ++ "" = s.
Proof. induction s as [|c s IH]; [done|]. change (String c (s ++ "") = String c s). by rewrite IH. Qed.

Lemma append_ne (s t : string) : t ≠ "" → s ++ t ≠ s.
Proof. intros Ht H. apply Ht, (append_inj_l s). by rewrite append_empty_r. Qed.

(** Two names built from the same key differ when their suffixes do. *)
Ltac suffix_ne :=
  first
    [ by apply append_ne
    | by (intros H; symmetry in H; revert H; apply append_ne)
    | by (intros H%append_inj_l) ].

Lemma truthy_Some (s : string) : truthy (Some s) = negb (String.eqb s "").
Proof. done. Qed.

Lemma truthy_nonempty (s : string) : s ≠ "" → truthy (Some s) = true.
Proof. intros H. cbn. by destruct (String.eqb_spec s ""). Qed.

(** What [localStorage] holds under the four names of [dataType] after
    [saveData]. *)
Lemma saveData_lookup (ts dataType data fileName fileType : string) (s : Store) :
  let storage := localStorage (saveData true ts dataType data fileName fileType s) in
  storage !! dataType = Some data
  ∧ storage !! (dataType ++ "FileName") = Some fileName
  ∧ storage !! (dataType ++ "FileType") = Some fileType
  ∧ storage !! (dataType ++ "Timestamp") = Some ts.
Proof.
  cbn. repeat split.
  - rewrite !lookup_insert_ne by suffix_ne. by rewrite lookup_insert_eq.
  - rewrite !lookup_insert_ne by suffix_ne. rewrite lookup_insert_eq. done.
  - rewrite lookup_insert_ne by suffix_ne. by rewrite lookup_insert_eq.
  - by rewrite lookup_insert_eq.
Qed.

Lemma checkDataStatus_lookup (window : bool) (s : Store) (key : string) :
  key ∈ STORAGE_KEYS →
  dataStatus (checkDataStatus window s) !! key
  = Some (isDataAvailable window (localStorage s) key).
Proof.
  intros H. unfold checkDataStatus; cbn [dataStatus].
  repeat (apply elem_of_cons in H as [->|H]; [done|]).
  by apply elem_of_nil in H.
Qed.

(** X18.  In a browser, [saveData] stores the data, the file name, the file type
    and the time stamp under four different names, whatever the key is, and
    marks the key as available.  [hasData] agrees with that mark only for
    non-empty data: after saving the empty string the status says true,
    [hasData] says false, and the next [checkDataStatus] turns the panel of
    a storage key back to the empty state. *)
Theorem saveData_status (ts dataType data fileName fileType : string) (s : Store) :
  let s' := saveData true ts dataType data fileName fileType s in
  localStorage s' !! dataType = Some data
  ∧ localStorage s' !! (dataType ++ "FileName") = Some fileName
  ∧ localStorage s' !! (dataType ++ "FileType") = Some fileType
  ∧ localStorage s' !! (dataType ++ "Timestamp") = Some ts
  ∧ panelShown s' dataType = true
  ∧ hasData true s' dataType = negb (String.eqb data "")
  ∧ (dataType ∈ STORAGE_KEYS →
     panelShown (checkDataStatus true s') dataType = negb (String.eqb data "")).
Proof.
  intros s'.
  destruct (saveData_lookup ts dataType data fileName fileType s) as (H1 & H2 & H3 & H4).
  fold s' in H1, H2, H3, H4.
  split; [done|]. split; [done|]. split; [done|]. split; [done|].
  split; [|split].
  - unfold panelShown, s'. cbn. by rewrite lookup_insert_eq.
  - unfold hasData, isDataAvailable. cbn [negb]. by rewrite H1.
  - intros Hk. unfold panelShown. rewrite checkDataStatus_lookup by done.
    unfold isDataAvailable. cbn [negb default]. by rewrite H1.
Qed.

Lemma saveData_other_lookup (ts key other data fileName fileType name : string)
    (s : Store) :
  key ∈ STORAGE_KEYS → other ∈ STORAGE_KEYS → key ≠ other →
  name ∈ [ key; key ++ "FileName"; key ++ "FileType"; key ++ "Timestamp" ] →
  localStorage (saveData true ts other data fileName fileType s) !! name
  = localStorage s !! name.
Proof.
  intros Hk Ho Hne Hn. cbn [saveData negb localStorage].
  repeat (apply elem_of_cons in Hk as [->|Hk]);
    [..|by apply elem_of_nil in Hk];
    (repeat (apply elem_of_cons in Ho as [->|Ho]);
       [..|by apply elem_of_nil in Ho]);
    try done;
    (repeat (apply elem_of_cons in Hn as [->|Hn]);
       [..|by apply elem_of_nil in Hn]);
    by rewrite !lookup_insert_ne by (cbn; discriminate).
Qed.

(** X19.  The five storage keys do not interfere: saving under one of them
    changes none of the four entries of another one, nor whether the other
    one has data, nor its status. *)
Theorem saveData_other_key (ts key other data fileName fileType : string) (s : Store) :
  key ∈ STORAGE_KEYS → other ∈ STORAGE_KEYS → key ≠ other →
  let s' := saveData true ts other data fileName fileType s in
  (∀ name, name ∈ [ key; key ++ "FileName"; key ++ "FileType"; key ++ "Timestamp" ] →
           localStorage s' !! name = localStorage s !! name)
  ∧ hasData true s' key = hasData true s key
  ∧ panelShown s' key = panelShown s key.
Proof.
  intros Hk Ho Hne s'. split; [|split].
  - intros name Hn. by apply saveData_other_lookup with key.
  - unfold hasData, isDataAvailable. cbn [negb].
    unfold s'. rewrite (saveData_other_lookup ts key other) by (done || apply list_elem_of_here).
    done.
  - unfold panelShown, s'. cbn. by rewrite lookup_insert_ne.
Qed.

Lemma saveData_other_key_witness :
  let s := mkStore ∅ noData in
  let s' := saveData true "1700000000000" SENTIMENT "[]" "s.json" "application/json" s in
  hasData true s' WORD_CLOUD = hasData true s WORD_CLOUD.
Proof.
  intros s s'.
  apply (saveData_other_key "1700000000000" WORD_CLOUD SENTIMENT "[]" "s.json"
           "application/json" s); [in_keys | in_keys | discriminate].
Defined.

Lemma fold_delete_lookup (keys : list string) (storage : gmap string string)
    (name : string) :
  fold_left (λ storage key, delete key storage) keys storage !! name
  = if decide (name ∈ keys) then None else storage !! name.
Proof.
  revert storage. induction keys as [|k keys IH]; intros storage; cbn [fold_left].
  - destruct (decide (name ∈ [])) as [H|_]; [by apply elem_of_nil in H|done].
  - rewrite IH. destruct (decide (name ∈ keys)) as [Hin|Hin].
    + rewrite decide_True; [done|]. by apply list_elem_of_further.
    + destruct (decide (name = k)) as [->|Hne].
      * rewrite decide_True by apply list_elem_of_here. by rewrite lookup_delete_eq.
      * rewrite decide_False.
        -- by rewrite lookup_delete_ne.
        -- intros [?|?]%elem_of_cons; done.
Qed.

Lemma clearAllData_lookup (s : Store) (name : string) :
  localStorage (clearAllData true s) !! name
  = if decide (name ∈ clearedKeys) then None else localStorage s !! name.
Proof. cbn [clearAllData negb localStorage]. apply fold_delete_lookup. Qed.

Lemma storage_key_cleared (key : string) :
  key ∈ STORAGE_KEYS → key ∈ clearedKeys.
Proof.
  intros H. repeat (apply elem_of_cons in H as [->|H]; [in_keys|]).
  by apply elem_of_nil in H.
Qed.

Lemma clearAllData_unavailable (s : Store) (key : string) :
  key ∈ STORAGE_KEYS → isDataAvailable true (localStorage (clearAllData true s)) key = false.
Proof.
  intros H. unfold isDataAvailable. cbn [negb]. rewrite clearAllData_lookup.
  by rewrite decide_True by by apply storage_key_cleared.
Qed.

(** X20.  In a browser, [clearAllData] removes the four entries of each of the
    five storage keys and nothing else, no storage key has data afterwards,
    every panel shows the empty state, and status and storage agree: a
    [checkDataStatus] after it changes nothing. *)
Theorem clearAllData_clears (s : Store) :
  let s' := clearAllData true s in
  (∀ key name, key ∈ STORAGE_KEYS →
     name ∈ [ key; key ++ "FileName"; key ++ "FileType"; key ++ "Timestamp" ] →
     localStorage s' !! name = None)
  ∧ (∀ name, name ∉ clearedKeys → localStorage s' !! name = localStorage s !! name)
  ∧ (∀ key, key ∈ STORAGE_KEYS → hasData true s' key = false ∧ panelShown s' key = false)
  ∧ checkDataStatus true s' = s'.
Proof.
  intros s'. split; [|split; [|split]].
  - intros key name Hk Hn. unfold s'. rewrite clearAllData_lookup.
    rewrite decide_True; [done|].
    unfold clearedKeys. apply list_elem_of_In, in_flat_map. exists key.
    split; by apply list_elem_of_In.
  - intros name Hn. unfold s'. rewrite clearAllData_lookup. by rewrite decide_False.
  - intros key Hk. split; [by apply clearAllData_unavailable|].
    unfold panelShown, s'. cbn [clearAllData negb dataStatus].
    repeat (apply elem_of_cons in Hk as [->|Hk]; [done|]).
    by apply elem_of_nil in Hk.
  - unfold checkDataStatus, s'. cbn [map STORAGE_KEYS].
    rewrite !clearAllData_unavailable by in_keys.
    done.
Qed.

(** X21.  What was saved is what the fetchers return: after [saveData] under
    its key, [fetchEmailDistribution] and [fetchDateDistribution] return the
    saved text, and [fetchSentimentData] the saved text through
    [JSON.parse]; the mock data come back only for the empty string or,
    for the sentiment data, for text that does not parse. *)
Theorem fetch_after_save {J : Type} (jsonParse : string → option J) (mockJ : J)
    (ts data fileName fileType mock : string) (s : Store) :
  let saved key := localStorage (saveData true ts key data fileName fileType s) in
  fetchEmailDistribution mock true (saved EMAIL_DISTRIBUTION)
  = (if String.eqb data "" then mock else data)
  ∧ fetchDateDistribution mock true (saved DATE_DISTRIBUTION)
    = (if String.eqb data "" then mock else data)
  ∧ fetchSentimentData jsonParse mockJ true (saved SENTIMENT)
    = (if String.eqb data "" then mockJ else default mockJ (jsonParse data)).
Proof.
  intros saved.
  pose proof (saveData_lookup ts EMAIL_DISTRIBUTION data fileName fileType s) as (He & _).
  pose proof (saveData_lookup ts DATE_DISTRIBUTION data fileName fileType s) as (Hd & _).
  pose proof (saveData_lookup ts SENTIMENT data fileName fileType s) as (Hs & _).
  unfold fetchEmailDistribution, fetchDateDistribution, fetchText, fetchSentimentData,
    isDataAvailable, saved.
  cbn [negb]. rewrite He, Hd, Hs, truthy_Some.
  by destruct (String.eqb data "").
Qed.

(** X22.  After [clearAllData] every fetcher returns its mock data. *)
Theorem fetch_after_clear {J : Type} (jsonParse : string → option J) (mockJ : J)
    (mock : string) (s : Store) :
  let storage := localStorage (clearAllData true s) in
  fetchEmailDistribution mock true storage = mock
  ∧ fetchDateDistribution mock true storage = mock
  ∧ fetchSentimentData jsonParse mockJ true storage = mockJ.
Proof.
  intros storage.
  unfold fetchEmailDistribution, fetchDateDistribution, fetchText, fetchSentimentData,
    storage.
  rewrite !clearAllData_unavailable by in_keys.
  done.
Qed.

(** X23.  [parseUserData] reads back what [saveData] stored: for non-empty
    data, the parsed value when the file type contains "json" (also when
    it contains "csv" or "text" as well), [null] when [JSON.parse]
    throws, the unchanged text when the type contains "csv" or "text" but
    not "json", and [null] for any other type; for the empty string it is
    [null] whatever the type. *)
Theorem parseUserData_after_save {J : Type} (jsonParse : string → option J)
    (ts dataType data fileName fileType : string) (s : Store) :
  let storage := localStorage (saveData true ts dataType data fileName fileType s) in
  parseUserData jsonParse true storage dataType
  = if String.eqb data "" then None
    else if Js.includes "json" fileType then inl <$> jsonParse data
    else if Js.includes "csv" fileType || Js.includes "text" fileType
    then Some (inr data)
    else None.
Proof.
  intros storage.
  destruct (saveData_lookup ts dataType data fileName fileType s) as (H1 & _ & H3 & _).
  fold storage in H1, H3.
  unfold parseUserData. cbn [negb]. rewrite H1, H3, truthy_Some.
  by destruct (String.eqb data "").
Qed.

Lemma dataExists_false (storage : gmap string string) :
  dataExists storage = false ↔ ∀ key, key ∈ STORAGE_KEYS → storage !! key = None.
Proof.
  unfold dataExists. rewrite <- not_true_iff_false, existsb_exists. split.
  - intros H key Hk. destruct (storage !! key) eqn:E; [|done].
    exfalso. apply H. exists key. split; [by apply list_elem_of_In|].
    apply bool_decide_eq_true. by rewrite E.
  - intros H (key & Hk%list_elem_of_In & Hd%bool_decide_eq_true). by apply Hd, H.
Qed.

(** X24.  The dashboard's [checkData] opens the upload dialog exactly when none
    of the five storage keys is in [localStorage]; it never closes an open
    dialog, and it leaves the status untouched when it opens it. *)
Theorem checkData_opens_modal (s : Store) (showUploadModal : bool) :
  (snd (checkData s showUploadModal) = true
   ↔ showUploadModal = true
     ∨ ∀ key, key ∈ STORAGE_KEYS → localStorage s !! key = None)
  ∧ ((∀ key, key ∈ STORAGE_KEYS → localStorage s !! key = None) →
     fst (checkData s showUploadModal) = s).
Proof.
  unfold checkData. destruct (dataExists (localStorage s)) eqn:E; cbn [fst snd].
  - split.
    + split; [by left|]. intros [H|H]; [done|].
      apply dataExists_false in H. congruence.
    + intros H. apply dataExists_false in H. congruence.
  - split; [|done]. split; [|done]. intros _. right. by apply dataExists_false.
Qed.

Lemma checkData_opens_modal_witness :
  fst (checkData (mkStore ∅ noData) false) = mkStore ∅ noData.
Proof.
  apply (checkData_opens_modal (mkStore ∅ noData) false).
  intros key _. apply lookup_empty.
Defined.

(** X25.  A stored empty string counts as present for [checkData] but not as
    available for the status: when the only entries under the storage keys
    are empty strings, and there is one, the dialog does not open although
    every panel shows the empty state. *)
Theorem checkData_empty_upload (s : Store) (present : string) :
  present ∈ STORAGE_KEYS →
  localStorage s !! present = Some "" →
  (∀ key, key ∈ STORAGE_KEYS →
          localStorage s !! key = None ∨ localStorage s !! key = Some "") →
  snd (checkData s false) = false
  ∧ ∀ key, key ∈ STORAGE_KEYS → panelShown (fst (checkData s false)) key = false.
Proof.
  intros Hp Hempty Hall. unfold checkData.
  destruct (dataExists (localStorage s)) eqn:E.
  - cbn [fst snd]. split; [done|]. intros key Hk.
    unfold panelShown. rewrite checkDataStatus_lookup by done.
    unfold isDataAvailable. cbn [negb default].
    by destruct (Hall key Hk) as [-> | ->].
  - pose proof (proj1 (dataExists_false _) E present Hp) as Hnone. congruence.
Qed.

Lemma checkData_empty_upload_witness :
  snd (checkData (mkStore {[ SENTIMENT := "" ]} noData) false) = false.
Proof.
  apply (checkData_empty_upload (mkStore {[ SENTIMENT := "" ]} noData) SENTIMENT).
  - in_keys.
  - apply lookup_singleton_eq.
  - intros key Hk. cbn [localStorage].
    destruct (decide (key = SENTIMENT)) as [->|Hne].
    + right. apply lookup_singleton_eq.
    + left. by apply lookup_singleton_ne.
Defined.

End DataStoreFacts.


(** ** The sample loader *)

Module LoaderFacts.
Import Stdlib.Strings.Ascii.
Import Loader.

Open Scope string_scope.

Lemma split_not_nil (sep : Ascii.ascii) (s : string) : Js.split sep s ≠ [].
Proof.
  induction s as [|c s IH]; cbn; [done|].
  destruct (Ascii.eqb c sep); [done|]. by destruct (Js.split sep s).
Qed.

(** A string splits into one part exactly when it does not hold the
    separator. *)
Lemma split_one_part (sep : Ascii.ascii) (s : string) :
  Js.includes (String sep "") s = false ↔ ∃ part, Js.split sep s = [part].
Proof.
  induction s as [|c s IH].
  - cbn. split; [by exists ""|done].
  - cbn [Js.includes Js.split String.prefix].
    destruct (Ascii.ascii_dec sep c) as [->|Hne].
    + rewrite (proj2 (Ascii.eqb_eq c c) eq_refl).
      replace (String.prefix "" s) with true by (by destruct s).
      cbn. split; [done|].
      intros [part [= _ H]]. by apply split_not_nil in H.
    + destruct (Ascii.eqb_spec c sep) as [->|_]; [done|].
      cbn [orb]. rewrite IH.
      destruct (Js.split sep s) as [|p [|q parts]] eqn:E.
      * by apply split_not_nil in E.
      * split; intros _; eauto.
      * split; intros [part [=]].
Qed.

Lemma parseDateLine_None (line : string) :
  parseDateLine line = None ↔ Js.includes "," line = false.
Proof.
  rewrite (split_one_part ","%char line). unfold parseDateLine.
  destruct (Js.split ","%char line) as [|p [|q parts]] eqn:E.
  - by apply split_not_nil in E.
  - split; eauto.
  - split; [done|]. intros [part [=]].
Qed.

(** X26.  The load of the samples fails on the date distribution exactly when
    some line after the header has no comma, a blank line inside the file
    among them; the email distribution, read from the same kind of text,
    drops such lines and never fails. *)
Theorem date_load_fails (text : string) :
  (parseDateDistribution text = None
   ↔ ∃ line, line ∈ dataLines text ∧ Js.includes "," line = false)
  ∧ ("" ∈ dataLines text → parseDateDistribution text = None).
Proof.
  assert (parseDateDistribution text = None
          ↔ ∃ line, line ∈ dataLines text ∧ Js.includes "," line = false) as Hiff.
  { unfold parseDateDistribution. rewrite fmap_None.
    rewrite eq_None_not_Some, mapM_is_Some, <- Exists_Forall_neg
      by (intros line; unfold compose; destruct (parseDateLine line); [left|right]; eauto;
          by intros [? ?]).
    rewrite Exists_exists. apply exist_proper. intros line.
    apply and_iff_compat_l. unfold compose.
    rewrite <- parseDateLine_None, eq_None_not_Some. done. }
  split; [done|].
  intros Hblank. apply Hiff. by exists "".
Qed.

Lemma date_load_fails_witness :
  let text := String.append "time,count" (String Js.LF (String Js.LF "2024-01-01,3")) in
  parseDateDistribution text = None.
Proof.
  intros text. apply (date_load_fails text). in_keys.
Defined.

End LoaderFacts.
